(** * Qiskit backend server: circuit building and simulation requests

    A shallow embedding of [qiskit-backend/server.py]: the gate table
    [GATE_MAP], [build_circuit], [run_simulation] and the request handlers
    [run_circuit], [parse_qasm], [list_jobs] and [status].

    The server is a thin layer over two libraries.  Of Qiskit's
    [QuantumCircuit] the file models what [build_circuit] exercises: the
    constructor, the gate methods with their qubit-argument conversion,
    broadcasting and duplicate check, [remove_final_measurements],
    [measure_all] and Aer's [save_statevector].  The simulator itself
    (transpilation, execution, QASM text, floating-point magnitudes, the
    clock) is an [Environment] the handlers are parametrised by; every call
    to the simulator is recorded in the [calls] of the [world].  Of
    [remove_final_measurements] the environment decides what Qiskit leaves
    open: the order in which the dependency graph lists independent
    operations, and the pruning of classical bits.

    Strings are byte strings.  Python's [str.lower] is modelled on ASCII
    text; results that depend on the lower-casing of a gate name are stated
    for ASCII names. *)

From Stdlib Require Import ZArith PrimFloat SpecFloat FloatOps String Ascii List Lia.
From stdpp Require Import gmap strings list pretty.

Set Warnings "-register-all".
Set Default Proof Using "Type".

Open Scope Z_scope.
Open Scope string_scope.
Open Scope list_scope.

(** ** Python values

    The JSON bodies the handlers receive, as Python sees them after
    [request.json]: [None], booleans, integers, floats (binary64), strings,
    lists and string-keyed dictionaries. *)

Inductive pyval : Type :=
  | PyNone
  | PyBool (b : bool)
  | PyInt (z : Z)
  | PyFloat (f : float)
  | PyStr (s : string)
  | PyList (l : list pyval)
  | PyDict (d : gmap string pyval).

(** The exception classes that can arise in the modelled code.  All are
    subclasses of [Exception]; [QiskitError] stands for whatever the
    simulator side raises, with its message. *)
Inductive exn : Type :=
  | AttributeError
  | TypeError
  | KeyError
  | IndexError
  | ZeroDivisionError
  | OverflowError
  | ValueError
  | CircuitError
  | QiskitError (msg : string).

(** The outcome of evaluating a Python expression: a value or a raised
    exception. *)
Inductive outcome (A : Type) : Type :=
  | Ok (a : A)
  | Raise (e : exn).
Arguments Ok {A} a.
Arguments Raise {A} e.

Definition obind {A B} (m : outcome A) (k : A -> outcome B) : outcome B :=
  match m with
  | Ok a => k a
  | Raise e => Raise e
  end.

Fixpoint omapM {A B} (f : A -> outcome B) (l : list A) : outcome (list B) :=
  match l with
  | [] => Ok []
  | x :: rest =>
      obind (f x) (fun y => obind (omapM f rest) (fun ys => Ok (y :: ys)))
  end.

(** A computation over a mutable state [S]: the state survives a raised
    exception, as the effects of Python code do. *)
Definition SE (S A : Type) : Type := S -> outcome A * S.

Definition ret {S A} (a : A) : SE S A := fun s => (Ok a, s).
Definition raise {S A} (e : exn) : SE S A := fun s => (Raise e, s).
Definition bind {S A B} (m : SE S A) (k : A -> SE S B) : SE S B :=
  fun s =>
    match m s with
    | (Ok a, s') => k a s'
    | (Raise e, s') => (Raise e, s')
    end.
Definition lift {S A} (o : outcome A) : SE S A := fun s => (o, s).
(** [try: m except Exception as e: h e] *)
Definition try_except {S A} (m : SE S A) (h : exn -> SE S A) : SE S A :=
  fun s =>
    match m s with
    | (Ok a, s') => (Ok a, s')
    | (Raise e, s') => h e s'
    end.

Declare Scope se_scope.
Delimit Scope se_scope with se.
Notation "'do' x <- m ; k" := (bind m (fun x => k))
  (at level 10, x name, m at level 100, k at level 200) : se_scope.
Notation "'exec' m ; k" := (bind m (fun _ => k))
  (at level 10, m at level 100, k at level 200) : se_scope.
Open Scope se_scope.

(** ** Python primitives used by the server *)

Definition float_zero : float := 0%float.
Definition float_one : float := 1%float.

(** [bool(v)]: Python truthiness. *)
Definition truthy (v : pyval) : bool :=
  match v with
  | PyNone => false
  | PyBool b => b
  | PyInt z => negb (z =? 0)%Z
  | PyFloat f => negb (PrimFloat.eqb f float_zero)
  | PyStr s => negb (String.eqb s EmptyString)
  | PyList l => match l with [] => false | _ => true end
  | PyDict d => negb (bool_decide (d = ∅))
  end.

(** The values [v + 1] is defined on: integers, booleans and floats. *)
Definition is_number (v : pyval) : bool :=
  match v with PyInt _ | PyBool _ | PyFloat _ => true | _ => false end.

(** [v is not None] *)
Definition is_not_None (v : pyval) : bool :=
  match v with PyNone => false | _ => true end.

(** [v.get(key, default)]: only dictionaries have a [get] attribute. *)
Definition py_get (v : pyval) (key : string) (default : pyval) : outcome pyval :=
  match v with
  | PyDict d => Ok (match d !! key with Some x => x | None => default end)
  | _ => Raise AttributeError
  end.

Definition lower_ascii (c : ascii) : ascii :=
  let n := N_of_ascii c in
  if ((65 <=? n) && (n <=? 90))%N then ascii_of_N (n + 32) else c.

Fixpoint lower (s : string) : string :=
  match s with
  | EmptyString => EmptyString
  | String c rest => String (lower_ascii c) (lower rest)
  end.

(** ASCII text: every character is below 128.  On such text [lower] is
    Python's [str.lower]; Python also lower-cases letters outside ASCII
    (the Kelvin sign becomes [k]), which [lower] leaves as they are. *)
Definition ascii_only (s : string) : bool :=
  forallb (fun c => (N_of_ascii c <? 128)%N) (list_ascii_of_string s).

Definition is_ascii_letter (c : ascii) : bool :=
  let n := N_of_ascii c in
  ((65 <=? n) && (n <=? 90) || (97 <=? n) && (n <=? 122))%N.

(** Two names that differ at most in the case of their ASCII letters. *)
Fixpoint caseless_eqb (s t : string) : bool :=
  match s, t with
  | EmptyString, EmptyString => true
  | String a s', String b t' =>
      (Ascii.eqb a b
       || is_ascii_letter a && is_ascii_letter b
          && ((N_of_ascii a =? N_of_ascii b + 32)
              || (N_of_ascii b =? N_of_ascii a + 32))%N)
      && caseless_eqb s' t'
  | _, _ => false
  end.

(** [v.lower()]: only strings have it. *)
Definition py_lower (v : pyval) : outcome string :=
  match v with
  | PyStr s => Ok (lower s)
  | _ => Raise AttributeError
  end.

Definition Z_of_bool (b : bool) : Z := if b then 1 else 0.

(** [float(z)], rounded to nearest. *)
Definition float_of_Z (z : Z) : float :=
  SF2Prim (binary_normalize prec emax z 0 false).

(** [v + k] for an integer literal [k]. *)
Definition py_add_int (v : pyval) (k : Z) : outcome pyval :=
  match v with
  | PyInt z => Ok (PyInt (z + k))
  | PyBool b => Ok (PyInt (Z_of_bool b + k))
  | PyFloat f => Ok (PyFloat (f + float_of_Z k)%float)
  | _ => Raise TypeError
  end.

(** [v[0]] *)
Definition py_getitem0 (v : pyval) : outcome pyval :=
  match v with
  | PyList (x :: _) => Ok x
  | PyList [] => Raise IndexError
  | PyStr (String c _) => Ok (PyStr (String c EmptyString))
  | PyStr EmptyString => Raise IndexError
  | PyDict _ => Raise KeyError
  | _ => Raise TypeError
  end.

(** [len(v)] *)
Definition py_len (v : pyval) : outcome nat :=
  match v with
  | PyList l => Ok (List.length l)
  | PyStr s => Ok (String.length s)
  | PyDict d => Ok (size d)
  | _ => Raise TypeError
  end.

(** [for x in v]: the items a [for] loop visits. *)
Definition py_iter (v : pyval) : outcome (list pyval) :=
  match v with
  | PyList l => Ok l
  | PyStr s => Ok ((fun c => PyStr (String c EmptyString)) <$> list_ascii_of_string s)
  | PyDict d => Ok ((fun kv => PyStr kv.1) <$> map_to_list d)
  | _ => Raise TypeError
  end.

(** Sequencing over a list, as a [for] loop whose body may raise. *)
Fixpoint for_each {S A} (l : list A) (body : A -> SE S unit) : SE S unit :=
  match l with
  | [] => ret tt
  | x :: rest => exec body x; for_each rest body
  end.

Fixpoint mapM {S A B} (f : A -> SE S B) (l : list A) : SE S (list B) :=
  match l with
  | [] => ret []
  | x :: rest => do y <- f x; do ys <- mapM f rest; ret (y :: ys)
  end.

(** ** Qiskit's circuit object

    An instruction of a circuit: the operation's name and parameters and the
    resolved indices of the qubits and classical bits it acts on. *)
Record Instruction : Type := {
  instr_name : string;
  instr_params : list pyval;
  instr_qubits : list Z;
  instr_clbits : list Z
}.

(** A circuit: the number of qubits, the sizes of its classical registers in
    the order they were added, and the instruction list ([qc.data]). *)
Record QuantumCircuit : Type := {
  qc_num_qubits : Z;
  qc_cregs : list Z;
  qc_data : list Instruction
}.

Definition qc_num_clbits (qc : QuantumCircuit) : Z :=
  foldr Z.add 0 (qc_cregs qc).

Definition CircuitM : Type -> Type := SE QuantumCircuit.

(** The integer a float denotes, when it denotes one. *)
Definition float_integral (f : float) : outcome Z :=
  match Prim2SF f with
  | S754_zero _ => Ok 0
  | S754_finite s m e =>
      let sign (z : Z) := if s then - z else z in
      if (0 <=? e)%Z then Ok (sign (Z.pos m * 2 ^ e))
      else if (Z.pos m mod 2 ^ (- e) =? 0)%Z then Ok (sign (Z.pos m / 2 ^ (- e)))
      else Raise CircuitError
  | S754_infinity _ => Raise OverflowError
  | S754_nan => Raise CircuitError
  end.

(** The size the constructor accepts for a register: a value [v] with
    [v == int(v)], cast to [int]; anything else is a [CircuitError]. *)
Definition register_size (v : pyval) : outcome Z :=
  match v with
  | PyInt z => Ok z
  | PyBool b => Ok (Z_of_bool b)
  | PyFloat f => float_integral f
  | _ => Raise CircuitError
  end.

Definition unhashable (v : pyval) : bool :=
  match v with PyList _ | PyDict _ => true | _ => false end.

(** [QuantumCircuit(v, v)]: a quantum register [q] and a classical register
    [c], both of size [v].  A negative size is rejected; size 0 gives a
    circuit without registers.  A list argument is taken as a list of bit
    objects, which JSON cannot supply: only the empty list passes. *)
Definition QuantumCircuit_new (v : pyval) : outcome QuantumCircuit :=
  match v with
  | PyList [] =>
      Ok {| qc_num_qubits := 0; qc_cregs := []; qc_data := [] |}
  | PyList l =>
      if existsb unhashable l then Raise TypeError else Raise CircuitError
  | _ =>
      obind (register_size v) (fun n =>
        if (n <? 0)%Z then Raise CircuitError
        else Ok {| qc_num_qubits := n;
                   qc_cregs := if (n =? 0)%Z then [] else [n];
                   qc_data := [] |})
  end.

(** Python's [bits[i]] on a sequence of [n] bits: negative indices count
    from the end; outside [-n, n) Qiskit turns the [IndexError] into a
    [CircuitError]. *)
Definition bit_index (n i : Z) : outcome Z :=
  if ((0 <=? i) && (i <? n))%Z then Ok i
  else if ((- n <=? i) && (i <? 0))%Z then Ok (n + i)
  else Raise CircuitError.

Definition bit_argument_conversion_scalar (n : Z) (specifier : pyval) : outcome Z :=
  match specifier with
  | PyInt i => bit_index n i
  | PyBool b => bit_index n (Z_of_bool b)
  | _ => Raise CircuitError
  end.

(** The bits a specifier denotes: an integer is one bit, an iterable is the
    list of the bits its items denote, anything else is a [CircuitError]. *)
Definition bit_argument_conversion (n : Z) (specifier : pyval) : outcome (list Z) :=
  match specifier with
  | PyInt i => obind (bit_index n i) (fun q => Ok [q])
  | PyBool b => obind (bit_index n (Z_of_bool b)) (fun q => Ok [q])
  | PyNone | PyFloat _ => Raise CircuitError
  | _ => obind (py_iter specifier) (omapM (bit_argument_conversion_scalar n))
  end.

Definition qbit_argument_conversion (specifier : pyval) : CircuitM (list Z) :=
  fun qc => (bit_argument_conversion (qc_num_qubits qc) specifier, qc).

Definition cbit_argument_conversion (specifier : pyval) : CircuitM (list Z) :=
  fun qc => (bit_argument_conversion (qc_num_clbits qc) specifier, qc).

(** [Gate.validate_parameter]: a gate parameter is an [int] or a [float]. *)
Definition validate_parameter (p : pyval) : outcome pyval :=
  match p with
  | PyInt _ | PyFloat _ | PyBool _ => Ok p
  | _ => Raise CircuitError
  end.

Definition is_nil {A} (l : list A) : bool :=
  match l with [] => true | _ => false end.

(** [Gate.broadcast_arguments]: the qubit tuples one call expands to. *)
Definition gate_broadcast_arguments (qargs : list (list Z)) : outcome (list (list Z)) :=
  if existsb is_nil qargs then Raise CircuitError
  else
    match qargs with
    | [] => Ok [[]]
    | [q0] => Ok ((fun a => [a]) <$> q0)
    | [q0; q1] =>
        if (length q0 =? length q1)%nat then Ok (zip_with (fun a b => [a; b]) q0 q1)
        else
          match q0, q1 with
          | [a], _ => Ok ((fun b => [a; b]) <$> q1)
          | _, [b] => Ok ((fun a => [a; b]) <$> q0)
          | _, _ => Raise CircuitError
          end
    | q0 :: rest =>
        if forallb (fun q => (length q =? length q0)%nat) rest
        then Ok (foldr (zip_with cons) (replicate (length q0) []) qargs)
        else Raise CircuitError
    end.

(** [Measure.broadcast_arguments] *)
Definition measure_broadcast_arguments (qarg carg : list Z) : outcome (list (Z * Z)) :=
  if (length carg =? length qarg)%nat then Ok (zip qarg carg)
  else
    match qarg with
    | [q] => Ok ((fun c => (q, c)) <$> carg)
    | _ => Raise CircuitError
    end.

Fixpoint has_dups (l : list Z) : bool :=
  match l with
  | [] => false
  | x :: rest => existsb (Z.eqb x) rest || has_dups rest
  end.

Definition _check_dups (qubits : list Z) : CircuitM unit :=
  if has_dups qubits then raise CircuitError else ret tt.

(** The circuit with one more instruction at the end of [qc.data]. *)
Definition with_instruction (qc : QuantumCircuit) (i : Instruction) : QuantumCircuit :=
  {| qc_num_qubits := qc_num_qubits qc;
     qc_cregs := qc_cregs qc;
     qc_data := qc_data qc ++ [i] |}.

Definition _append (i : Instruction) : CircuitM unit :=
  fun qc => (Ok tt, with_instruction qc i).

(** [qc.append(gate, qargs, [])] for a gate [name(params)]: the arguments are
    converted, broadcast, and each tuple is checked and appended in turn, so
    a failing tuple leaves the earlier ones in the circuit. *)
Definition append_gate (name : string) (params : list pyval) (qargs : list pyval)
    : CircuitM unit :=
  do params' <- lift (omapM validate_parameter params);
  do expanded <- mapM qbit_argument_conversion qargs;
  do tuples <- lift (gate_broadcast_arguments expanded);
  for_each tuples (fun qarg =>
    exec _check_dups qarg;
    _append {| instr_name := name; instr_params := params';
               instr_qubits := qarg; instr_clbits := [] |}).

Definition qc_h (qubit : pyval) := append_gate "h" [] [qubit].
Definition qc_x (qubit : pyval) := append_gate "x" [] [qubit].
Definition qc_y (qubit : pyval) := append_gate "y" [] [qubit].
Definition qc_z (qubit : pyval) := append_gate "z" [] [qubit].
Definition qc_s (qubit : pyval) := append_gate "s" [] [qubit].
Definition qc_t (qubit : pyval) := append_gate "t" [] [qubit].
Definition qc_sdg (qubit : pyval) := append_gate "sdg" [] [qubit].
Definition qc_tdg (qubit : pyval) := append_gate "tdg" [] [qubit].
Definition qc_rx (theta qubit : pyval) := append_gate "rx" [theta] [qubit].
Definition qc_ry (theta qubit : pyval) := append_gate "ry" [theta] [qubit].
Definition qc_rz (phi qubit : pyval) := append_gate "rz" [phi] [qubit].
Definition qc_cx (control target : pyval) := append_gate "cx" [] [control; target].
Definition qc_cy (control target : pyval) := append_gate "cy" [] [control; target].
Definition qc_cz (control target : pyval) := append_gate "cz" [] [control; target].
Definition qc_swap (qubit1 qubit2 : pyval) := append_gate "swap" [] [qubit1; qubit2].
Definition qc_ccx (control1 control2 target : pyval) :=
  append_gate "ccx" [] [control1; control2; target].
Definition qc_cswap (control target1 target2 : pyval) :=
  append_gate "cswap" [] [control; target1; target2].

(** [qc.measure(qubit, cbit)] *)
Definition qc_measure (qubit cbit : pyval) : CircuitM unit :=
  do qarg <- qbit_argument_conversion qubit;
  do carg <- cbit_argument_conversion cbit;
  do pairs <- lift (measure_broadcast_arguments qarg carg);
  for_each pairs (fun p =>
    _append {| instr_name := "measure"; instr_params := [];
               instr_qubits := [p.1]; instr_clbits := [p.2] |}).

(** [qc.copy()]: circuits are values here, so a copy is the circuit itself. *)
Definition qc_copy (qc : QuantumCircuit) : QuantumCircuit := qc.

Definition is_final_op_type (i : Instruction) : bool :=
  String.eqb (instr_name i) "measure" || String.eqb (instr_name i) "barrier".

(** The scan behind [remove_final_measurements], from the last instruction
    backwards: a measure or barrier is final when no instruction that stays
    in the circuit follows it on any of its qubits.  [blocked] holds the
    qubits on which such an instruction has been seen. *)
Fixpoint drop_final_ops (l : list Instruction) : list Instruction * gset Z :=
  match l with
  | [] => ([], ∅)
  | i :: rest =>
      let '(kept, blocked) := drop_final_ops rest in
      if is_final_op_type i && forallb (fun q => bool_decide (q ∉ blocked)) (instr_qubits i)
      then (kept, blocked)
      else (i :: kept, list_to_set (instr_qubits i) ∪ blocked)
  end.

(** The measurements and barriers the scan finds final, in circuit order. *)
Fixpoint final_ops (l : list Instruction) : list Instruction :=
  match l with
  | [] => []
  | i :: rest =>
      if is_final_op_type i
         && forallb (fun q => bool_decide (q ∉ (drop_final_ops rest).2)) (instr_qubits i)
      then i :: final_ops rest
      else final_ops rest
  end.

(** Two instructions that act on a common qubit or classical bit. *)
Definition shares_wire (a b : Instruction) : bool :=
  existsb (fun q => bool_decide (q ∈ instr_qubits b)) (instr_qubits a)
  || existsb (fun c => bool_decide (c ∈ instr_clbits b)) (instr_clbits a).

(** The instruction lists with the same dependency graph: one is obtained
    from the other by exchanging neighbours that share no wire, so the
    instructions on any one wire keep their order. *)
Inductive reorders : list Instruction -> list Instruction -> Prop :=
  | reorders_refl l : reorders l l
  | reorders_swap l1 a b l2 l' :
      shares_wire a b = false ->
      reorders (l1 ++ b :: a :: l2) l' ->
      reorders (l1 ++ a :: b :: l2) l'.

(** The classical registers as ranges of bit indices: first bit and size. *)
Fixpoint creg_ranges (first : Z) (cregs : list Z) : list (Z * Z) :=
  match cregs with
  | [] => []
  | size :: rest => (first, size) :: creg_ranges (first + size) rest
  end.

Definition creg_bits (r : Z * Z) : list Z :=
  (fun k => r.1 + Z.of_nat k) <$> seq 0 (Z.to_nat r.2).

Definition clbits_of (l : list Instruction) : list Z :=
  concat (instr_clbits <$> l).

(** A classical register is removed with the final measurements when one
    of its bits was the target of a removed measurement and none of its
    bits is used by an instruction that stays. *)
Definition creg_removed (freed busy : list Z) (r : Z * Z) : bool :=
  existsb (fun b => bool_decide (b ∈ freed)) (creg_bits r)
  && forallb (fun b => bool_decide (b ∉ busy)) (creg_bits r).

(** The index of bit [b] once the bits of the [removed] registers are gone. *)
Definition renumber_clbit (removed : list (Z * Z)) (b : Z) : Z :=
  b - foldr Z.add 0 (snd <$> List.filter (fun r => (r.1 <? b)%Z) removed).

Definition with_clbits (f : Z -> Z) (i : Instruction) : Instruction :=
  {| instr_name := instr_name i; instr_params := instr_params i;
     instr_qubits := instr_qubits i; instr_clbits := f <$> instr_clbits i |}.

(** What [remove_final_measurements] may leave of a circuit: classical
    registers [cregs] and an instruction list [data].  The final
    measurements and barriers are gone; the instructions that stay are
    listed in an order of their dependency graph, with their classical
    bits renumbered where idle bits were pruned; a circuit without final
    measurement or barrier keeps its registers and its bit indices. *)
Definition rebuilds (qc : QuantumCircuit) (cregs : list Z) (data : list Instruction)
    : Prop :=
  exists (order : list Instruction) (renumber : Z -> Z),
    reorders (drop_final_ops (qc_data qc)).1 order
    /\ data = with_clbits renumber <$> order
    /\ (final_ops (qc_data qc) = [] -> cregs = qc_cregs qc /\ data = order).

(** One such rebuild: the instructions stay in the order of the circuit,
    and the registers left without use by the removal go with their bits. *)
Definition reference_rebuild (qc : QuantumCircuit) : list Z * list Instruction :=
  let kept := (drop_final_ops (qc_data qc)).1 in
  let freed := clbits_of (final_ops (qc_data qc)) in
  let busy := clbits_of kept in
  let ranges := creg_ranges 0 (qc_cregs qc) in
  let removed := List.filter (creg_removed freed busy) ranges in
  (snd <$> List.filter (fun r => negb (creg_removed freed busy r)) ranges,
   with_clbits (renumber_clbit removed) <$> kept).

Definition reference_rebuild_spec (qc : QuantumCircuit) :
  rebuilds qc (reference_rebuild qc).1 (reference_rebuild qc).2.
Proof.
  exists (drop_final_ops (qc_data qc)).1, (renumber_clbit
    (List.filter (creg_removed (clbits_of (final_ops (qc_data qc)))
                    (clbits_of (drop_final_ops (qc_data qc)).1))
       (creg_ranges 0 (qc_cregs qc)))).
  split; [apply reorders_refl|]. split; [reflexivity|].
  intros Hfinal. unfold reference_rebuild. cbv zeta. rewrite Hfinal.
  assert (forall busy r, creg_removed (clbits_of []) busy r = false) as Hkeep.
  { intros busy r. unfold creg_removed.
    assert (existsb (fun b => bool_decide (b ∈ clbits_of [])) (creg_bits r) = false) as ->;
      [|reflexivity].
    apply not_true_is_false. intros (b & _ & Hb)%existsb_exists.
    apply bool_decide_eq_true in Hb. by apply elem_of_nil in Hb. }
  assert (forall busy l, List.filter (creg_removed (clbits_of []) busy) l = []) as Hnone.
  { intros busy l. induction l as [|r l IH]; simpl; [reflexivity|]. by rewrite Hkeep. }
  assert (forall busy l,
            List.filter (fun r => negb (creg_removed (clbits_of []) busy r)) l = l) as Hall.
  { intros busy l. induction l as [|r l IH]; simpl; [reflexivity|].
    by rewrite Hkeep, IH. }
  assert (forall first cregs, snd <$> creg_ranges first cregs = cregs) as Hranges.
  { intros first cregs. revert first.
    induction cregs as [|s cregs IH]; intros first; simpl; [reflexivity|].
    by rewrite IH. }
  simpl fst. simpl snd. rewrite Hall, Hnone, Hranges. split; [reflexivity|].
  induction (drop_final_ops (qc_data qc)).1 as [|i l IH]; [reflexivity|].
  rewrite fmap_cons, IH. f_equal. destruct i as [name params qubits clbits].
  unfold with_clbits. simpl. f_equal.
  induction clbits as [|c cs IHc]; [reflexivity|].
  rewrite fmap_cons, IHc. f_equal. unfold renumber_clbit. simpl. lia.
Qed.

Definition all_qubits (qc : QuantumCircuit) : list Z :=
  Z.of_nat <$> seq 0 (Z.to_nat (qc_num_qubits qc)).

(** Aer's [qc.save_statevector()]: a save instruction over all qubits; on a
    circuit without qubits it raises a [ValueError]. *)
Definition save_statevector (qc : QuantumCircuit) : outcome QuantumCircuit :=
  match all_qubits qc with
  | [] => Raise ValueError
  | qubits =>
      Ok {| qc_num_qubits := qc_num_qubits qc;
            qc_cregs := qc_cregs qc;
            qc_data := qc_data qc ++
              [{| instr_name := "save_statevector"; instr_params := [];
                  instr_qubits := qubits; instr_clbits := [] |}] |}
  end.

(** [qc.measure_all()]: a new classical register [meas] with one bit per
    qubit, a barrier, and a measurement of every qubit into its new bit. *)
Definition measure_all (qc : QuantumCircuit) : QuantumCircuit :=
  let base := qc_num_clbits qc in
  {| qc_num_qubits := qc_num_qubits qc;
     qc_cregs := qc_cregs qc ++ [qc_num_qubits qc];
     qc_data := qc_data qc ++
       {| instr_name := "barrier"; instr_params := [];
          instr_qubits := all_qubits qc; instr_clbits := [] |} ::
       ((fun q => {| instr_name := "measure"; instr_params := [];
                     instr_qubits := [q]; instr_clbits := [base + q] |})
          <$> all_qubits qc) |}.

(** ** The gate table and the builder *)

(** Gate mapping from frontend to Qiskit. *)
Definition GATE_MAP : gmap string string :=
  list_to_map
    [ ("h", "h"); ("x", "x"); ("y", "y"); ("z", "z"); ("s", "s"); ("t", "t");
      ("sdg", "sdg"); ("tdg", "tdg"); ("rx", "rx"); ("ry", "ry"); ("rz", "rz");
      ("cx", "cx"); ("cnot", "cx"); ("cy", "cy"); ("cz", "cz"); ("swap", "swap");
      ("ccx", "ccx"); ("toffoli", "ccx"); ("cswap", "cswap"); ("fredkin", "cswap");
      ("measure", "measure") ].

(** [np.pi] and the default rotation angle [np.pi / 2]. *)
Definition np_pi : float := 0x1.921fb54442d18p+1%float.
Definition half_pi : float := (np_pi / 2)%float.

(** What the logger receives. *)
Inductive log_record : Type :=
  | Info_running (num_qubits : pyval) (n_gates : nat) (shots : pyval)
  | Warning_unknown_gate (gate : string)
  | Error_applying_gate (gate : string) (e : exn)
  | Error_running_circuit (e : exn)
  | Error_parsing_qasm (e : exn).

(** The [try] body of [build_circuit]: the branch for [mapped_gate]. *)
Definition apply_gate (mapped_gate : string) (gate_info qubit target_qubit params : pyval)
    : CircuitM unit :=
  if String.eqb mapped_gate "h" then qc_h qubit
  else if String.eqb mapped_gate "x" then qc_x qubit
  else if String.eqb mapped_gate "y" then qc_y qubit
  else if String.eqb mapped_gate "z" then qc_z qubit
  else if String.eqb mapped_gate "s" then qc_s qubit
  else if String.eqb mapped_gate "t" then qc_t qubit
  else if String.eqb mapped_gate "sdg" then qc_sdg qubit
  else if String.eqb mapped_gate "tdg" then qc_tdg qubit
  else if String.eqb mapped_gate "rx" then
    do angle <- (if truthy params then lift (py_getitem0 params) else ret (PyFloat half_pi));
    qc_rx angle qubit
  else if String.eqb mapped_gate "ry" then
    do angle <- (if truthy params then lift (py_getitem0 params) else ret (PyFloat half_pi));
    qc_ry angle qubit
  else if String.eqb mapped_gate "rz" then
    do angle <- (if truthy params then lift (py_getitem0 params) else ret (PyFloat half_pi));
    qc_rz angle qubit
  else if String.eqb mapped_gate "cx" then
    if is_not_None target_qubit then qc_cx qubit target_qubit else ret tt
  else if String.eqb mapped_gate "cy" then
    if is_not_None target_qubit then qc_cy qubit target_qubit else ret tt
  else if String.eqb mapped_gate "cz" then
    if is_not_None target_qubit then qc_cz qubit target_qubit else ret tt
  else if String.eqb mapped_gate "swap" then
    if is_not_None target_qubit then qc_swap qubit target_qubit else ret tt
  else if String.eqb mapped_gate "ccx" then
    do qubit_1 <- lift (py_add_int qubit 1);
    do control2 <- lift (py_get gate_info "control2Qubit" qubit_1);
    if is_not_None target_qubit then qc_ccx qubit control2 target_qubit else ret tt
  else if String.eqb mapped_gate "cswap" then
    do qubit_1 <- lift (py_add_int qubit 1);
    do swap1 <- lift (py_get gate_info "swap1Qubit" qubit_1);
    do qubit_2 <- lift (py_add_int qubit 2);
    do swap2 <- lift (py_get gate_info "swap2Qubit" qubit_2);
    qc_cswap qubit swap1 swap2
  else if String.eqb mapped_gate "measure" then qc_measure qubit qubit
  else ret tt.

(** The state [build_circuit] works on: the circuit under construction and
    the log. *)
Definition BuildM : Type -> Type := SE (QuantumCircuit * list log_record).

Definition logger {S} (r : log_record) : SE (S * list log_record) unit :=
  fun st => (Ok tt, (st.1, st.2 ++ [r])).

Definition on_circuit {A} (m : CircuitM A) : BuildM A :=
  fun st => let '(o, qc') := m st.1 in (o, (qc', st.2)).

(** One iteration of the loop of [build_circuit]. *)
Definition build_gate (gate_info : pyval) : BuildM unit :=
  do gate_v <- lift (py_get gate_info "gate" (PyStr EmptyString));
  do gate <- lift (py_lower gate_v);
  do qubit <- lift (py_get gate_info "qubit" (PyInt 0));
  do target_qubit <- lift (py_get gate_info "targetQubit" PyNone);
  do params <- lift (py_get gate_info "params" (PyList []));
  match GATE_MAP !! gate with
  | Some mapped_gate =>
      try_except
        (on_circuit (apply_gate mapped_gate gate_info qubit target_qubit params))
        (fun e => logger (Error_applying_gate gate e))
  | None => logger (Warning_unknown_gate gate)
  end.

(** Build a Qiskit QuantumCircuit from gate list.  The result is the circuit
    (or the exception that left the function) and the log it wrote. *)
Definition build_circuit (num_qubits : pyval) (gates : pyval)
    : outcome QuantumCircuit * list log_record :=
  match QuantumCircuit_new num_qubits with
  | Raise e => (Raise e, [])
  | Ok qc =>
      match py_iter gates with
      | Raise e => (Raise e, [])
      | Ok items =>
          match for_each items build_gate (qc, []) with
          | (Ok _, (qc', log)) => (Ok qc', log)
          | (Raise e, (_, log)) => (Raise e, log)
          end
      end
  end.

(** ** The simulator side

    What the server obtains from Aer, NumPy, Qiskit's QASM exporter and
    importer, and the clock.  [simulator_run c shots] stands for
    [simulator.run(c, shots=shots).result()]. *)
Record AerResult : Type := {
  get_statevector : outcome (list (float * float));
  get_counts : outcome (list (string * Z))
}.

Record Environment : Type := {
  (** the classical registers and the instruction list of a circuit after
      [remove_final_measurements] *)
  final_measurements_removed : QuantumCircuit -> list Z * list Instruction;
  final_measurements_removed_spec :
    forall qc, rebuilds qc (final_measurements_removed qc).1
                 (final_measurements_removed qc).2;
  transpile : QuantumCircuit -> outcome QuantumCircuit;
  simulator_run : QuantumCircuit -> pyval -> outcome AerResult;
  (** [abs(amp) ** 2] on a complex amplitude [(re, im)] *)
  abs_squared : float * float -> float;
  qasm : QuantumCircuit -> outcome string;
  depth : QuantumCircuit -> outcome Z;
  from_qasm_str : pyval -> outcome QuantumCircuit;
  now_strftime : string;
  now_isoformat : string;
  qiskit_version : string;
  IBM_QUANTUM_TOKEN : option string
}.

(** Store recent jobs in memory. *)
Record job_record : Type := {
  job_id : string;
  job_timestamp : string;
  job_num_qubits : pyval;
  job_num_gates : nat;
  job_shots : pyval;
  job_success : bool
}.

Definition MAX_JOBS : nat := 100.

(** A call the server made to the simulator side. *)
Inductive call : Type :=
  | Call_transpile (qc : QuantumCircuit)
  | Call_run (qc : QuantumCircuit) (shots : pyval).

(** The process state: the log written so far, the job list, and the
    simulator calls made so far, oldest first. *)
Record world : Type := {
  log : list log_record;
  recent_jobs : list job_record;
  calls : list call
}.

Definition WorldM : Type -> Type := SE world.

Definition write_log (rs : list log_record) : WorldM unit :=
  fun w => (Ok tt, {| log := log w ++ rs; recent_jobs := recent_jobs w; calls := calls w |}).

Definition record_call (c : call) : WorldM unit :=
  fun w => (Ok tt, {| log := log w; recent_jobs := recent_jobs w; calls := calls w ++ [c] |}).

(** [recent_jobs.insert(0, job); if len(recent_jobs) > MAX_JOBS: recent_jobs.pop()] *)
Definition store_job (j : job_record) : WorldM unit :=
  fun w =>
    let jobs := j :: recent_jobs w in
    let jobs' := if (MAX_JOBS <? length jobs)%nat then removelast jobs else jobs in
    (Ok tt, {| log := log w; recent_jobs := jobs'; calls := calls w |}).

(** [build_circuit] run inside a handler: its log goes to the process log. *)
Definition call_build_circuit (num_qubits gates : pyval) : WorldM QuantumCircuit :=
  let '(o, written) := build_circuit num_qubits gates in
  exec write_log written; lift o.

Fixpoint pos_binary (p : positive) (acc : string) : string :=
  match p with
  | xH => String "1" acc
  | xO p' => pos_binary p' (String "0" acc)
  | xI p' => pos_binary p' (String "1" acc)
  end.

(** [format(i, f'0{width}b')]: binary digits, zero-padded to [width]. *)
Definition format_binary (i : nat) (width : Z) : string :=
  let digits := match N.of_nat i with
                | N0 => "0"
                | Npos p => pos_binary p EmptyString
                end in
  string_of_list_ascii
    (replicate (Z.to_nat width - String.length digits) "0"%char
       ++ list_ascii_of_string digits).

(** Filter near-zero probabilities *)
Definition epsilon : float := 0x1.b7cdfd9d7bdbbp-34%float.

(** [count / shots] for an integer [count] (below [2^53], so that its
    conversion to a float is exact). *)
Definition py_truediv (count : Z) (shots : pyval) : outcome float :=
  match shots with
  | PyInt s =>
      if (s =? 0)%Z then Raise ZeroDivisionError
      else Ok (float_of_Z count / float_of_Z s)%float
  | PyBool b =>
      if b then Ok (float_of_Z count / float_one)%float else Raise ZeroDivisionError
  | PyFloat f =>
      if PrimFloat.eqb f float_zero then Raise ZeroDivisionError
      else Ok (float_of_Z count / f)%float
  | _ => Raise TypeError
  end.

(** The results dictionary of [run_simulation]. *)
Record results : Type := {
  statevector_real : list float;
  statevector_imag : list float;
  probabilities : list (string * float);
  measurements : list (string * float);
  counts : list (string * Z);
  results_shots : pyval
}.

(** The JSON answers of the handlers, with their HTTP status. *)
Inductive response : Type :=
  | Run_success (job_id : string) (res : results) (qasm_text : string)
      (circuit_depth : Z) (gate_count : nat)
  | Qasm_success (res : results) (num_qubits : Z) (circuit_depth : Z)
  | Failure (error : exn) (http_status : Z).

Record status_response : Type := {
  status_status : string;
  status_version : string;
  status_timestamp : string;
  ibm_quantum_configured : bool;
  max_qubits : Z;
  features : list (option string)
}.

(** [qc.remove_final_measurements()]: the measurements and barriers at the
    end of the circuit are removed; a measurement followed by a gate on its
    qubit stays.  The qubits stay; the classical registers and the rebuilt
    instruction list are those the library leaves ([rebuilds]). *)
Definition remove_final_measurements (E : Environment) (qc : QuantumCircuit)
    : QuantumCircuit :=
  {| qc_num_qubits := qc_num_qubits qc;
     qc_cregs := (final_measurements_removed E qc).1;
     qc_data := (final_measurements_removed E qc).2 |}.

(** The circuit [run_simulation] sends to the simulator for the state vector
    when the circuit has a qubit: a copy without its final measurements,
    with a save instruction over all qubits at the end. *)
Definition state_circuit_of (E : Environment) (qc : QuantumCircuit) : QuantumCircuit :=
  let c := remove_final_measurements E (qc_copy qc) in
  {| qc_num_qubits := qc_num_qubits c;
     qc_cregs := qc_cregs c;
     qc_data := qc_data c ++
       [{| instr_name := "save_statevector"; instr_params := [];
           instr_qubits := all_qubits c; instr_clbits := [] |}] |}.

(** The circuit [run_simulation] samples: a copy measuring all qubits. *)
Definition measurement_circuit_of (qc : QuantumCircuit) : QuantumCircuit :=
  measure_all (qc_copy qc).

Section Server.

Variable E : Environment.

Definition call_transpile (qc : QuantumCircuit) : WorldM QuantumCircuit :=
  exec record_call (Call_transpile qc); lift (transpile E qc).

Definition call_run (qc : QuantumCircuit) (shots : pyval) : WorldM AerResult :=
  exec record_call (Call_run qc shots); lift (simulator_run E qc shots).

(** Calculate probabilities *)
Definition calculate_probabilities (num_qubits : Z) (statevector : list (float * float))
    : list (string * float) :=
  omap (fun '(i, amp) =>
          let prob := abs_squared E amp in
          if (epsilon <? prob)%float then Some (format_binary i num_qubits, prob)
          else None)
       (imap pair statevector).

(** Run circuit simulation using Aer simulator *)
Definition run_simulation (qc : QuantumCircuit) (shots : pyval) : WorldM results :=
  (* Get state vector before measurement *)
  do state_circuit <-
    lift (save_statevector (remove_final_measurements E (qc_copy qc)));
  (* Run for state vector *)
  do transpiled <- call_transpile state_circuit;
  do result <- call_run transpiled (PyInt 1);
  do statevector <- lift (get_statevector result);
  let probabilities := calculate_probabilities (qc_num_qubits qc) statevector in
  (* Run measurements *)
  let measurement_circuit := measurement_circuit_of qc in
  do transpiled_meas <- call_transpile measurement_circuit;
  do meas_result <- call_run transpiled_meas shots;
  do counts <- lift (get_counts meas_result);
  (* Convert counts to probabilities *)
  do measurement_probs <-
    lift (omapM (fun sc => obind (py_truediv sc.2 shots) (fun p => Ok (sc.1, p))) counts);
  ret {| statevector_real := fst <$> statevector;
         statevector_imag := snd <$> statevector;
         probabilities := probabilities;
         measurements := measurement_probs;
         counts := counts;
         results_shots := shots |}.

(** Get server status and version info *)
Definition status : status_response :=
  {| status_status := "running";
     status_version := qiskit_version E;
     status_timestamp := now_isoformat E;
     ibm_quantum_configured :=
       match IBM_QUANTUM_TOKEN E with
       | Some t => negb (String.eqb t EmptyString)
       | None => false
       end;
     max_qubits := 25;
     features :=
       [Some "state-vector"; Some "measurement"; Some "noise-models";
        match IBM_QUANTUM_TOKEN E with
        | Some t => if String.eqb t EmptyString then None else Some "ibm-quantum"
        | None => None
        end] |}.

(** Run a quantum circuit *)
Definition run_circuit (data : pyval) : WorldM response :=
  try_except
    (do num_qubits <- lift (py_get data "numQubits" (PyInt 2));
     do gates <- lift (py_get data "gates" (PyList []));
     do shots <- lift (py_get data "shots" (PyInt 1024));
     do n_gates <- lift (py_len gates);
     exec write_log [Info_running num_qubits n_gates shots];
     (* Build circuit *)
     do qc <- call_build_circuit num_qubits gates;
     (* Run simulation *)
     do res <- run_simulation qc shots;
     (* Store job *)
     let job := {| job_id := "job-" +:+ now_strftime E;
                   job_timestamp := now_isoformat E;
                   job_num_qubits := num_qubits;
                   job_num_gates := n_gates;
                   job_shots := shots;
                   job_success := true |} in
     exec store_job job;
     (* Generate QASM *)
     do qasm_text <- lift (qasm E qc);
     do circuit_depth <- lift (depth E qc);
     ret (Run_success (job_id job) res qasm_text circuit_depth (length (qc_data qc))))
    (fun e =>
       exec write_log [Error_running_circuit e];
       ret (Failure e 500)).

(** Parse and run QASM code *)
Definition parse_qasm (data : pyval) : WorldM response :=
  try_except
    (do qasm_code <- lift (py_get data "qasm" (PyStr EmptyString));
     do shots <- lift (py_get data "shots" (PyInt 1024));
     do qc <- lift (from_qasm_str E qasm_code);
     do res <- run_simulation qc shots;
     do circuit_depth <- lift (depth E qc);
     ret (Qasm_success res (qc_num_qubits qc) circuit_depth))
    (fun e =>
       exec write_log [Error_parsing_qasm e];
       ret (Failure e 400)).

End Server.

(** List recent jobs: [recent_jobs[:limit]] and the total; [limit] is the
    integer query argument, 10 when it is absent. *)
Definition list_jobs (limit_arg : option Z) (w : world) : list job_record * nat :=
  let limit := default 10 limit_arg in
  let n := length (recent_jobs w) in
  let stop := if (limit <? 0)%Z then Z.to_nat (Z.of_nat n + limit) else Z.to_nat limit in
  (take stop (recent_jobs w), n).

(** ** A reference environment: circuits that apply no gate

    On a circuit holding only measurements, barriers and save instructions
    the register stays in the all-zero basis state, so the simulator's
    answers are known exactly: amplitude 1 at index 0 and every shot on the
    all-zero bit string.  [idle_env] gives these answers for a positive
    integer shot count and declines every other request with a
    [QiskitError]; it serves to run the handlers on concrete requests. *)

Definition gate_free (qc : QuantumCircuit) : bool :=
  forallb (fun i => String.eqb (instr_name i) "measure"
                    || String.eqb (instr_name i) "barrier"
                    || String.eqb (instr_name i) "save_statevector")
          (qc_data qc).

Definition has_instruction (name : string) (qc : QuantumCircuit) : bool :=
  existsb (fun i => String.eqb (instr_name i) name) (qc_data qc).

Definition zero_statevector (n : Z) : list (float * float) :=
  (float_one, float_zero) :: replicate (Z.to_nat (2 ^ n) - 1) (float_zero, float_zero).

Definition zeros (n : Z) : string :=
  string_of_list_ascii (replicate (Z.to_nat n) "0"%char).

(** The key of the all-zero outcome: one group of bits per classical
    register, the register added last first. *)
Definition zero_key (cregs : list Z) : string :=
  match reverse cregs with
  | [] => EmptyString
  | r :: rest => foldl (fun acc r' => acc +:+ " " +:+ zeros r') (zeros r) rest
  end.

Definition idle_run (qc : QuantumCircuit) (shots : pyval) : outcome AerResult :=
  match shots with
  | PyInt s =>
      if gate_free qc && (0 <? qc_num_qubits qc)%Z && (0 <? s)%Z then
        Ok {| get_statevector :=
                if has_instruction "save_statevector" qc
                then Ok (zero_statevector (qc_num_qubits qc))
                else Raise (QiskitError "no statevector");
              get_counts :=
                if has_instruction "measure" qc
                then Ok [(zero_key (qc_cregs qc), s)]
                else Raise (QiskitError "no counts") |}
      else Raise (QiskitError "declined")
  | _ => Raise (QiskitError "declined")
  end.

Definition newline : string := String (ascii_of_nat 10) EmptyString.
Definition quote : string := String (ascii_of_nat 34) EmptyString.

Definition qasm_operands (reg : string) (bits : list Z) : string :=
  match bits with
  | [] => EmptyString
  | b :: rest =>
      foldl (fun acc b' => acc +:+ "," +:+ reg +:+ "[" +:+ pretty b' +:+ "]")
            (reg +:+ "[" +:+ pretty b +:+ "]") rest
  end.

Definition qasm_line (i : Instruction) : string :=
  if String.eqb (instr_name i) "measure"
  then "measure " +:+ qasm_operands "q" (instr_qubits i) +:+ " -> "
         +:+ qasm_operands "c" (instr_clbits i) +:+ ";" +:+ newline
  else instr_name i +:+ " " +:+ qasm_operands "q" (instr_qubits i) +:+ ";" +:+ newline.

(** OpenQASM 2 text of a gate-free circuit with registers [q] and [c]. *)
Definition idle_qasm (qc : QuantumCircuit) : outcome string :=
  if gate_free qc && bool_decide (qc_cregs qc = [qc_num_qubits qc])
     && (0 <? qc_num_qubits qc)%Z
  then Ok ("OPENQASM 2.0;" +:+ newline
           +:+ "include " +:+ quote +:+ "qelib1.inc" +:+ quote +:+ ";" +:+ newline
           +:+ "qreg q[" +:+ pretty (qc_num_qubits qc) +:+ "];" +:+ newline
           +:+ "creg c[" +:+ pretty (qc_num_qubits qc) +:+ "];" +:+ newline
           +:+ foldr (fun i acc => qasm_line i +:+ acc) EmptyString (qc_data qc))
  else Raise (QiskitError "declined").

(** [qc.depth()]: the longest chain of instructions over shared wires,
    barriers not counted.  Wire [q] is qubit [q]; wire [n + c] is classical
    bit [c]. *)
Definition depth_step (n : Z) (op_stack : gmap Z nat) (i : Instruction) : gmap Z nat :=
  let wires := instr_qubits i ++ ((fun c => n + c) <$> instr_clbits i) in
  let inc := if String.eqb (instr_name i) "barrier" then 0%nat else 1%nat in
  let level w := (default 0%nat (op_stack !! w) + inc)%nat in
  let max_level := foldr Nat.max 0%nat (level <$> wires) in
  foldr (fun w acc => <[w := max_level]> acc) op_stack wires.

Definition circuit_depth_of (qc : QuantumCircuit) : Z :=
  Z.of_nat (map_fold (fun _ => Nat.max) 0%nat
              (foldl (depth_step (qc_num_qubits qc)) ∅ (qc_data qc))).

Definition idle_env : Environment :=
  {| final_measurements_removed := reference_rebuild;
     final_measurements_removed_spec := reference_rebuild_spec;
     transpile := Ok;
     simulator_run := idle_run;
     abs_squared := fun amp => (amp.1 * amp.1 + amp.2 * amp.2)%float;
     qasm := idle_qasm;
     depth := fun qc => Ok (circuit_depth_of qc);
     from_qasm_str := fun _ => Raise (QiskitError "declined");
     now_strftime := "20240101000000000000";
     now_isoformat := "2024-01-01T00:00:00";
     qiskit_version := "0.45.0";
     IBM_QUANTUM_TOKEN := None |}.

Definition empty_world : world := {| log := []; recent_jobs := []; calls := [] |}.

(** A JSON object from its members. *)
Definition json_object (members : list (string * pyval)) : pyval :=
  PyDict (list_to_map members).

Definition is_measure (i : Instruction) : bool :=
  String.eqb (instr_name i) "measure".

(** An operation that is neither a measurement nor a barrier. *)
Definition is_gate (i : Instruction) : bool := negb (is_final_op_type i).

Definition on_qubit (q : Z) (i : Instruction) : bool :=
  bool_decide (q ∈ instr_qubits i).

(** What an instruction does to the qubits: its name, parameters and qubits. *)
Definition quantum_op (i : Instruction) : string * list pyval * list Z :=
  (instr_name i, instr_params i, instr_qubits i).

(** Following the specification's exact mode: the full circuit minus any
    measure operation, wherever it stands. *)
Definition every_measure_removed (qc : QuantumCircuit) : QuantumCircuit :=
  {| qc_num_qubits := qc_num_qubits qc;
     qc_cregs := qc_cregs qc;
     qc_data := List.filter (fun i => negb (is_measure i)) (qc_data qc) |}.

(** A gate descriptor [build_circuit] can read: a dictionary whose [gate]
    entry, when present, is a string. *)
Definition descriptor_ok (v : pyval) : bool :=
  match v with
  | PyDict d =>
      match d !! "gate" with
      | None | Some (PyStr _) => true
      | Some _ => false
      end
  | _ => false
  end.

(** A circuit computation that leaves the registers of the circuit as
    they are, whatever it does to the instruction list. *)
Definition keeps_registers {A} (m : CircuitM A) : Prop :=
  forall qc, qc_num_qubits (m qc).2 = qc_num_qubits qc /\ qc_cregs (m qc).2 = qc_cregs qc.

(** The number a string of binary digits denotes, most significant digit
    first (Python's [int(s, 2)] on such a string). *)
Definition binary_value (s : string) : N :=
  foldl (fun acc c => (2 * acc + (if Ascii.eqb c "1" then 1 else 0))%N) 0%N
        (list_ascii_of_string s).

(** An instruction that fits a circuit of [n] qubits and [nc] classical
    bits: its indices are in range and its qubits pairwise distinct. *)
Definition instruction_fits (n nc : Z) (i : Instruction) : Prop :=
  Forall (fun q => 0 <= q < n) (instr_qubits i)
  /\ NoDup (instr_qubits i)
  /\ Forall (fun c => 0 <= c < nc) (instr_clbits i).

(** [idle_env] with a QASM exporter that always raises, to run the path
    of [run_circuit] on which the export fails after the simulation. *)
Definition export_failing_env : Environment :=
  {| final_measurements_removed := final_measurements_removed idle_env;
     final_measurements_removed_spec := final_measurements_removed_spec idle_env;
     transpile := transpile idle_env;
     simulator_run := simulator_run idle_env;
     abs_squared := abs_squared idle_env;
     qasm := fun _ => Raise (QiskitError "no export");
     depth := depth idle_env;
     from_qasm_str := from_qasm_str idle_env;
     now_strftime := now_strftime idle_env;
     now_isoformat := now_isoformat idle_env;
     qiskit_version := qiskit_version idle_env;
     IBM_QUANTUM_TOKEN := IBM_QUANTUM_TOKEN idle_env |}.

(** The job record [run_circuit] stores for a request. *)
Definition job_of (E : Environment) (num_qubits : pyval) (n_gates : nat) (shots : pyval)
    : job_record :=
  {| job_id := "job-" +:+ now_strftime E;
     job_timestamp := now_isoformat E;
     job_num_qubits := num_qubits;
     job_num_gates := n_gates;
     job_shots := shots;
     job_success := true |}.

(** The job list after [recent_jobs.insert(0, j)] and the trimming [pop]. *)
Definition jobs_with (j : job_record) (jobs : list job_record) : list job_record :=
  if (MAX_JOBS <? length (j :: jobs))%nat then removelast (j :: jobs) else j :: jobs.

(** [qc'] is [qc] with further instructions at the end of its list, each
    fitting the registers, which are unchanged. *)
Definition circuit_grows (qc qc' : QuantumCircuit) : Prop :=
  exists added,
    qc' = {| qc_num_qubits := qc_num_qubits qc; qc_cregs := qc_cregs qc;
             qc_data := qc_data qc ++ added |}
    /\ Forall (instruction_fits (qc_num_qubits qc) (qc_num_clbits qc)) added.

(** ** Process configuration

    The two readings of the environment variable [QISKIT_DEBUG] at start-up:
    the level given to [logging.basicConfig], and the [debug] flag given to
    [app.run]. *)
Inductive logging_level : Type := DEBUG | INFO.

(** [logging.DEBUG if os.getenv('QISKIT_DEBUG') else logging.INFO] *)
Definition configured_level (QISKIT_DEBUG : option string) : logging_level :=
  match QISKIT_DEBUG with
  | Some v => if String.eqb v EmptyString then INFO else DEBUG
  | None => INFO
  end.

(** [os.getenv('QISKIT_DEBUG', 'false').lower() == 'true'] *)
Definition configured_debug (QISKIT_DEBUG : option string) : bool :=
  String.eqb (lower (default "false" QISKIT_DEBUG)) "true".

(* ================================================================= *)
(** * Properties *)

(** ** The monad and the Python primitives *)

Lemma for_each_app {S A} (l1 l2 : list A) (body : A -> SE S unit) (s : S) :
  for_each (l1 ++ l2) body s =
    match for_each l1 body s with
    | (Ok _, s') => for_each l2 body s'
    | (Raise e, s') => (Raise e, s')
    end.
Proof.
  revert s. induction l1 as [|x l1 IH]; intros s; simpl.
  - reflexivity.
  - unfold bind. destruct (body x s) as [[[]|e] s']; [apply IH | reflexivity].
Qed.

Lemma bit_index_in_range (n q : Z) : 0 <= q < n -> bit_index n q = Ok q.
Proof.
  intros [H0 H1]. unfold bit_index.
  rewrite (proj2 (Z.leb_le 0 q) H0), (proj2 (Z.ltb_lt q n) H1). reflexivity.
Qed.

Lemma bit_index_out_of_range (n q : Z) :
  q < - n \/ n <= q -> bit_index n q = Raise CircuitError.
Proof.
  intros H. unfold bit_index.
  destruct (Z.leb_spec 0 q), (Z.ltb_spec q n), (Z.leb_spec (- n) q), (Z.ltb_spec q 0);
    simpl; try reflexivity; lia.
Qed.

Ltac in_list :=
  solve [repeat (first [apply list_elem_of_here | apply list_elem_of_further])].

Lemma GATE_MAP_range (g m : string) :
  GATE_MAP !! g = Some m ->
  m ∈ ["h"; "x"; "y"; "z"; "s"; "t"; "sdg"; "tdg"; "rx"; "ry"; "rz";
       "cx"; "cy"; "cz"; "swap"; "ccx"; "cswap"; "measure"].
Proof.
  intros H. apply elem_of_list_to_map_2 in H.
  repeat (apply elem_of_cons in H as [H|H];
          [injection H as _ ->; in_list|]).
  by apply elem_of_nil in H.
Qed.

(** ** The builder *)

Lemma GATE_MAP_rotation (r : string) :
  r ∈ ["rx"; "ry"; "rz"] -> GATE_MAP !! r = Some r.
Proof.
  intros H. repeat (apply elem_of_cons in H as [->|H]; [reflexivity|]).
  by apply elem_of_nil in H.
Qed.

Lemma apply_gate_rotation (r : string) (gate_info qubit target_qubit params : pyval) :
  r ∈ ["rx"; "ry"; "rz"] ->
  apply_gate r gate_info qubit target_qubit params =
    bind (if truthy params then lift (py_getitem0 params) else ret (PyFloat half_pi))
         (fun angle => append_gate r [angle] [qubit]).
Proof.
  intros H. repeat (apply elem_of_cons in H as [->|H]; [reflexivity|]).
  by apply elem_of_nil in H.
Qed.

Lemma append_gate_one_qubit (name : string) (params : list pyval) (q : Z) (qc : QuantumCircuit) :
  Forall (fun p => validate_parameter p = Ok p) params ->
  0 <= q < qc_num_qubits qc ->
  append_gate name params [PyInt q] qc =
    (Ok tt, with_instruction qc {| instr_name := name; instr_params := params;
                                   instr_qubits := [q]; instr_clbits := [] |}).
Proof.
  intros Hp Hq. unfold append_gate, bind, lift.
  assert (omapM validate_parameter params = Ok params) as ->.
  { induction Hp as [|p ps Hp _ IH]; simpl; [reflexivity|]. by rewrite Hp, IH. }
  simpl. unfold bind, qbit_argument_conversion, bit_argument_conversion.
  rewrite bit_index_in_range by done. reflexivity.
Qed.

(** C9: a descriptor for [rx], [ry] or [rz] (in any letter case) whose
    [params] entry is absent or the empty list is handled as the call
    [qc.rx(np.pi / 2, qubit)] (resp. [ry], [rz]) inside the [try], where
    [np.pi / 2] is the binary64 number [0x1.921fb54442d18p+0], that is
    1.5707963267948966; with an in-range qubit the circuit gains exactly one
    instruction at its end, the rotation by that angle on that qubit, and
    nothing is logged. *)
Theorem rotation_default_angle (d : gmap string pyval) (g r : string)
    (st : QuantumCircuit * list log_record) :
  d !! "gate" = Some (PyStr g) ->
  lower g = r ->
  r ∈ ["rx"; "ry"; "rz"] ->
  d !! "params" = None \/ d !! "params" = Some (PyList []) ->
  let angle := 0x1.921fb54442d18p+0%float in
  (Prim2SF angle = S754_finite false 7074237752028440 (-52)
   /\ 15707963267948965 * 2 ^ 52 <= 7074237752028440 * 10 ^ 16
        <= 15707963267948967 * 2 ^ 52)
  /\ build_gate (PyDict d) st =
       try_except
         (on_circuit (append_gate r [PyFloat angle] [default (PyInt 0) (d !! "qubit")]))
         (fun e => logger (Error_applying_gate r e)) st
  /\ forall q : Z,
       d !! "qubit" = Some (PyInt q) ->
       0 <= q < qc_num_qubits st.1 ->
       build_gate (PyDict d) st =
         (Ok tt,
          ({| qc_num_qubits := qc_num_qubits st.1;
              qc_cregs := qc_cregs st.1;
              qc_data := qc_data st.1 ++
                [{| instr_name := r; instr_params := [PyFloat angle];
                    instr_qubits := [q]; instr_clbits := [] |}] |},
           st.2)).
Proof.
  intros Hg Hr Hrot Hp angle.
  assert (half_pi = angle) as Hangle by reflexivity.
  assert (build_gate (PyDict d) st =
    try_except
      (on_circuit (append_gate r [PyFloat angle] [default (PyInt 0) (d !! "qubit")]))
      (fun e => logger (Error_applying_gate r e)) st) as Hstep.
  { unfold build_gate, bind, lift, py_get. rewrite Hg. simpl py_lower. rewrite Hr.
    rewrite (GATE_MAP_rotation r Hrot), (apply_gate_rotation r _ _ _ _ Hrot).
    assert (truthy (match d !! "params" with Some x => x | None => PyList [] end) = false)
      as Ht by (destruct Hp as [-> | ->]; reflexivity).
    unfold try_except, on_circuit, bind. rewrite Ht. unfold ret. rewrite Hangle.
    destruct (d !! "qubit"); reflexivity. }
  split; [split; [reflexivity | split; vm_compute; discriminate]|].
  split; [exact Hstep|].
  intros q Hq Hrange. rewrite Hstep, Hq. unfold try_except, on_circuit. simpl default.
  rewrite append_gate_one_qubit; [destruct st; reflexivity | | done].
  repeat constructor.
Qed.

Lemma build_gate_log_frame (v : pyval) (qc : QuantumCircuit) (lg : list log_record) :
  build_gate v (qc, lg) =
    let '(o, (qc', lg')) := build_gate v (qc, []) in (o, (qc', lg ++ lg')).
Proof.
  unfold build_gate, bind, lift.
  destruct (py_get v "gate" _) as [gate_v|e]; [|by rewrite app_nil_r].
  destruct (py_lower gate_v) as [gate|e]; [|by rewrite app_nil_r].
  destruct (py_get v "qubit" _) as [qubit|e]; [|by rewrite app_nil_r].
  destruct (py_get v "targetQubit" _) as [target|e]; [|by rewrite app_nil_r].
  destruct (py_get v "params" _) as [params|e]; [|by rewrite app_nil_r].
  destruct (GATE_MAP !! gate) as [m|]; [|reflexivity].
  unfold try_except, on_circuit, logger. simpl.
  destruct (apply_gate m v qubit target params qc) as [[[]|e] qc'];
    simpl; by rewrite ?app_nil_r.
Qed.

Lemma for_each_build_gate_log_frame (items : list pyval) (qc : QuantumCircuit)
    (lg : list log_record) :
  for_each items build_gate (qc, lg) =
    let '(o, (qc', lg')) := for_each items build_gate (qc, []) in (o, (qc', lg ++ lg')).
Proof.
  revert qc lg. induction items as [|v items IH]; intros qc lg; simpl.
  - unfold ret. by rewrite app_nil_r.
  - unfold bind. rewrite (build_gate_log_frame v qc lg).
    destruct (build_gate v (qc, [])) as [[[]|e] [qc1 lg1]]; [|reflexivity].
    rewrite (IH qc1 (lg ++ lg1)), (IH qc1 lg1).
    destruct (for_each items build_gate (qc1, [])) as [o [qc2 lg2]].
    by rewrite app_assoc.
Qed.

Lemma build_gate_unknown (d : gmap string pyval) (g : string) (st : QuantumCircuit * list log_record) :
  default (PyStr EmptyString) (d !! "gate") = PyStr g ->
  GATE_MAP !! lower g = None ->
  build_gate (PyDict d) st = (Ok tt, (st.1, st.2 ++ [Warning_unknown_gate (lower g)])).
Proof.
  intros Hg Hm. unfold build_gate, bind, lift, py_get.
  replace (match d !! "gate" with Some x => x | None => PyStr EmptyString end) with (PyStr g)
    by (rewrite <- Hg; by destruct (d !! "gate")).
  simpl py_lower. cbv beta iota. rewrite Hm. destruct st; reflexivity.
Qed.


Lemma build_circuit_list (num_qubits : pyval) (items : list pyval) :
  build_circuit num_qubits (PyList items) =
    match QuantumCircuit_new num_qubits with
    | Raise e => (Raise e, [])
    | Ok qc0 =>
        match for_each items build_gate (qc0, []) with
        | (Ok _, (qc', lg)) => (Ok qc', lg)
        | (Raise e, (_, lg)) => (Raise e, lg)
        end
    end.
Proof. reflexivity. Qed.


Lemma rotation_default_angle_witness :
  let qc := {| qc_num_qubits := 1; qc_cregs := [1]; qc_data := [] |} in
  build_gate (json_object [("gate", PyStr "RX"); ("qubit", PyInt 0)]) (qc, [])
    = (Ok tt,
       ({| qc_num_qubits := 1; qc_cregs := [1];
           qc_data := [] ++
             [{| instr_name := "rx";
                 instr_params := [PyFloat 0x1.921fb54442d18p+0%float];
                 instr_qubits := [0]; instr_clbits := [] |}] |}, [])).
Proof.
  intros qc.
  set (d := list_to_map [("gate", PyStr "RX"); ("qubit", PyInt 0)] : gmap string pyval).
  assert (d !! "gate" = Some (PyStr "RX")) as Hgate by (vm_compute; reflexivity).
  assert (d !! "params" = None) as Hparams by (vm_compute; reflexivity).
  apply (proj2 (proj2 (rotation_default_angle d "RX" "rx" (qc, []) Hgate eq_refl
                         (list_elem_of_here _ _) (or_introl Hparams))) 0).
  - vm_compute; reflexivity.
  - simpl. lia.
Defined.


(** ** Whole-build failures *)

Lemma keeps_registers_ret {A} (a : A) : keeps_registers (ret a).
Proof. by intros qc. Qed.

Lemma keeps_registers_lift {A} (o : outcome A) : keeps_registers (lift o).
Proof. by intros qc. Qed.

Lemma keeps_registers_raise {A} (e : exn) : keeps_registers (@raise _ A e).
Proof. by intros qc. Qed.

Lemma keeps_registers_bind {A B} (m : CircuitM A) (k : A -> CircuitM B) :
  keeps_registers m -> (forall a, keeps_registers (k a)) -> keeps_registers (bind m k).
Proof.
  intros Hm Hk qc. unfold bind. specialize (Hm qc).
  destruct (m qc) as [[a|e] qc1]; simpl in *; [|done].
  destruct (Hk a qc1) as [H1 H2]. destruct Hm as [H3 H4]. split; congruence.
Qed.

Lemma keeps_registers_for_each {A} (l : list A) (body : A -> CircuitM unit) :
  (forall a, keeps_registers (body a)) -> keeps_registers (for_each l body).
Proof.
  intros Hb. induction l as [|a l IH]; simpl.
  - apply keeps_registers_ret.
  - apply keeps_registers_bind; [apply Hb | intros _; apply IH].
Qed.

Lemma keeps_registers_mapM {A B} (l : list A) (f : A -> CircuitM B) :
  (forall a, keeps_registers (f a)) -> keeps_registers (mapM f l).
Proof.
  intros Hf. induction l as [|a l IH]; simpl.
  - apply keeps_registers_ret.
  - apply keeps_registers_bind; [apply Hf | intros b].
    apply keeps_registers_bind; [apply IH | intros bs; apply keeps_registers_ret].
Qed.

Lemma keeps_registers_append_gate name params qargs :
  keeps_registers (append_gate name params qargs).
Proof.
  unfold append_gate.
  apply keeps_registers_bind; [apply keeps_registers_lift | intros ps].
  apply keeps_registers_bind; [apply keeps_registers_mapM; by intros a qc | intros ex].
  apply keeps_registers_bind; [apply keeps_registers_lift | intros tuples].
  apply keeps_registers_for_each. intros qarg.
  apply keeps_registers_bind; [|by intros _ qc].
  unfold _check_dups. destruct (has_dups qarg); by intros qc.
Qed.

Lemma keeps_registers_measure qubit cbit : keeps_registers (qc_measure qubit cbit).
Proof.
  unfold qc_measure.
  apply keeps_registers_bind; [by intros qc | intros qarg].
  apply keeps_registers_bind; [by intros qc | intros carg].
  apply keeps_registers_bind; [apply keeps_registers_lift | intros pairs].
  apply keeps_registers_for_each. by intros p qc.
Qed.

Lemma keeps_registers_apply_gate m gate_info qubit target params :
  keeps_registers (apply_gate m gate_info qubit target params).
Proof.
  unfold apply_gate.
  repeat match goal with
  | |- keeps_registers (if ?b then _ else _) => destruct b
  | |- keeps_registers (bind _ _) => apply keeps_registers_bind; [|intros ?]
  | |- keeps_registers (lift _) => apply keeps_registers_lift
  | |- keeps_registers (ret _) => apply keeps_registers_ret
  | |- keeps_registers (qc_measure _ _) => apply keeps_registers_measure
  | |- keeps_registers _ => apply keeps_registers_append_gate
  end.
Qed.

Lemma build_gate_ok (v : pyval) (st : QuantumCircuit * list log_record) :
  descriptor_ok v = true ->
  exists st', build_gate v st = (Ok tt, st') /\
              qc_num_qubits st'.1 = qc_num_qubits st.1 /\
              qc_cregs st'.1 = qc_cregs st.1.
Proof.
  intros Hok. destruct v as [| | | | |l|d]; try discriminate. simpl in Hok.
  unfold build_gate, bind, lift, py_get.
  assert (exists g, py_lower (match d !! "gate" with Some x => x | None => PyStr EmptyString end)
                    = Ok g) as [g ->].
  { destruct (d !! "gate") as [[]|]; try discriminate; eauto. }
  destruct (GATE_MAP !! g) as [m|]; [|by eexists].
  unfold try_except, on_circuit. simpl.
  match goal with |- context [apply_gate ?a ?b ?c ?d ?e st.1] =>
    pose proof (keeps_registers_apply_gate a b c d e st.1) as [H1 H2];
    destruct (apply_gate a b c d e st.1) as [[[]|e'] qc'] end;
    eexists; split; try reflexivity; done.
Qed.

Lemma build_gate_not_ok (v : pyval) (st : QuantumCircuit * list log_record) :
  descriptor_ok v = false -> build_gate v st = (Raise AttributeError, st).
Proof.
  intros Hok. destruct v as [| | | | |l|d]; try reflexivity. simpl in Hok.
  unfold build_gate, bind, lift, py_get.
  destruct (d !! "gate") as [[]|]; try discriminate; reflexivity.
Qed.

Lemma for_each_build_gate_ok (items : list pyval) (st : QuantumCircuit * list log_record) :
  forallb descriptor_ok items = true ->
  exists st', for_each items build_gate st = (Ok tt, st') /\
              qc_num_qubits st'.1 = qc_num_qubits st.1 /\
              qc_cregs st'.1 = qc_cregs st.1.
Proof.
  revert st. induction items as [|v items IH]; intros st Hall; simpl in *.
  - by exists st.
  - apply andb_prop in Hall as [Hv Hall].
    destruct (build_gate_ok v st Hv) as (st1 & E1 & Hn1 & Hc1).
    destruct (IH st1 Hall) as (st2 & E2 & Hn2 & Hc2).
    exists st2. unfold bind. rewrite E1. split; [done|]. split; congruence.
Qed.

(** C6 (as the code has it): [build_circuit] checks nothing itself.  A
    negative qubit count makes the [QuantumCircuit] constructor raise, so no
    circuit is produced; a count of zero or more is accepted, and the build
    then succeeds when every descriptor is a dictionary whose [gate] entry is
    absent or a string, and fails as a whole with an [AttributeError] at the
    first descriptor that is not. *)
Theorem build_fails_as_a_whole (n : Z) (items : list pyval) :
  (n < 0 -> build_circuit (PyInt n) (PyList items) = (Raise CircuitError, [])) /\
  (0 <= n -> forallb descriptor_ok items = true ->
     exists qc lg, build_circuit (PyInt n) (PyList items) = (Ok qc, lg)
                   /\ qc_num_qubits qc = n) /\
  (0 <= n -> forall pre bad post,
     items = pre ++ bad :: post ->
     forallb descriptor_ok pre = true -> descriptor_ok bad = false ->
     exists lg, build_circuit (PyInt n) (PyList items) = (Raise AttributeError, lg)).
Proof.
  rewrite build_circuit_list. unfold QuantumCircuit_new, register_size, obind.
  split; [|split].
  - intros Hn. by rewrite (proj2 (Z.ltb_lt n 0) Hn).
  - intros Hn Hall. rewrite (proj2 (Z.ltb_ge n 0) Hn).
    match goal with |- context [for_each items build_gate ?st] =>
      destruct (for_each_build_gate_ok items st Hall) as ([qc lg] & -> & Hq & _) end.
    by exists qc, lg.
  - intros Hn pre bad post -> Hpre Hbad. rewrite (proj2 (Z.ltb_ge n 0) Hn).
    rewrite for_each_app.
    match goal with |- context [for_each pre build_gate ?st] =>
      destruct (for_each_build_gate_ok pre st Hpre) as ([qc lg] & -> & _) end.
    simpl. unfold bind. rewrite (build_gate_not_ok bad _ Hbad). by exists lg.
Qed.

(** ** Diagnostics *)

Ltac by_cases_on_membership H :=
  repeat (apply elem_of_cons in H as [->|H]; [reflexivity|]);
  by apply elem_of_nil in H.

Lemma mapped_gate_classes (m : string) :
  m ∈ ["h"; "x"; "y"; "z"; "s"; "t"; "sdg"; "tdg"; "rx"; "ry"; "rz";
       "cx"; "cy"; "cz"; "swap"; "ccx"; "cswap"; "measure"] ->
  m ∈ ["h"; "x"; "y"; "z"; "s"; "t"; "sdg"; "tdg"] \/ m ∈ ["rx"; "ry"; "rz"] \/
  m ∈ ["cx"; "cy"; "cz"; "swap"] \/ m = "ccx" \/ m = "cswap" \/ m = "measure".
Proof.
  intros H.
  repeat (apply elem_of_cons in H as [->|H];
          [first [ left; in_list
                 | right; left; in_list
                 | right; right; left; in_list
                 | right; right; right; left; reflexivity
                 | right; right; right; right; left; reflexivity
                 | right; right; right; right; right; reflexivity ]|]).
  by apply elem_of_nil in H.
Qed.

Lemma apply_gate_one_qubit (m : string) (gate_info qubit target_qubit params : pyval) :
  m ∈ ["h"; "x"; "y"; "z"; "s"; "t"; "sdg"; "tdg"] ->
  apply_gate m gate_info qubit target_qubit params = append_gate m [] [qubit].
Proof. intros H. by_cases_on_membership H. Qed.

Lemma apply_gate_two_qubit (m : string) (gate_info qubit target_qubit params : pyval) :
  m ∈ ["cx"; "cy"; "cz"; "swap"] ->
  apply_gate m gate_info qubit target_qubit params =
    if is_not_None target_qubit then append_gate m [] [qubit; target_qubit] else ret tt.
Proof. intros H. by_cases_on_membership H. Qed.

Lemma apply_gate_ccx (gate_info qubit target_qubit params : pyval) :
  apply_gate "ccx" gate_info qubit target_qubit params =
    (do qubit_1 <- lift (py_add_int qubit 1);
     do control2 <- lift (py_get gate_info "control2Qubit" qubit_1);
     if is_not_None target_qubit
     then append_gate "ccx" [] [qubit; control2; target_qubit] else ret tt).
Proof. reflexivity. Qed.

Lemma apply_gate_cswap (gate_info qubit target_qubit params : pyval) :
  apply_gate "cswap" gate_info qubit target_qubit params =
    (do qubit_1 <- lift (py_add_int qubit 1);
     do swap1 <- lift (py_get gate_info "swap1Qubit" qubit_1);
     do qubit_2 <- lift (py_add_int qubit 2);
     do swap2 <- lift (py_get gate_info "swap2Qubit" qubit_2);
     append_gate "cswap" [] [qubit; swap1; swap2]).
Proof. reflexivity. Qed.

Lemma apply_gate_measure (gate_info qubit target_qubit params : pyval) :
  apply_gate "measure" gate_info qubit target_qubit params = qc_measure qubit qubit.
Proof. reflexivity. Qed.

Lemma mapM_conversion (qargs : list pyval) (qc : QuantumCircuit) :
  mapM qbit_argument_conversion qargs qc
    = (omapM (bit_argument_conversion (qc_num_qubits qc)) qargs, qc).
Proof.
  induction qargs as [|x qargs IH]; simpl; [reflexivity|].
  unfold bind, qbit_argument_conversion at 1.
  destruct (bit_argument_conversion _ x); simpl; [|reflexivity].
  rewrite IH. by destruct (omapM _ qargs).
Qed.

Lemma omapM_raises {A B} (f : A -> outcome B) (l : list A) (x : A) (e : exn) :
  x ∈ l -> f x = Raise e -> exists e', omapM f l = Raise e'.
Proof.
  intros Hin Hx. induction l as [|y l IH]; [by apply elem_of_nil in Hin|].
  simpl. apply elem_of_cons in Hin as [<-|Hin].
  - rewrite Hx. by eexists.
  - destruct (f y); simpl; [|by eexists].
    destruct (IH Hin) as [e' ->]. by eexists.
Qed.

(** A gate call with an operand that does not denote qubits raises and
    leaves the circuit as it was. *)
Lemma append_gate_bad_operand name params qargs (qc : QuantumCircuit) x e :
  x ∈ qargs ->
  bit_argument_conversion (qc_num_qubits qc) x = Raise e ->
  exists e', append_gate name params qargs qc = (Raise e', qc).
Proof.
  intros Hin Hx. unfold append_gate, bind, lift.
  destruct (omapM validate_parameter params); [|by eexists].
  rewrite mapM_conversion.
  destruct (omapM_raises _ _ _ _ Hin Hx) as [e' ->]. by eexists.
Qed.

Lemma conversion_out_of_range (n q : Z) :
  q < - n \/ n <= q -> bit_argument_conversion n (PyInt q) = Raise CircuitError.
Proof. intros H. simpl. by rewrite bit_index_out_of_range. Qed.

Lemma apply_gate_primary_out_of_range (m : string) (gate_info target params : pyval)
    (q : Z) (qc : QuantumCircuit) :
  m ∈ ["h"; "x"; "y"; "z"; "s"; "t"; "sdg"; "tdg"; "rx"; "ry"; "rz";
       "cx"; "cy"; "cz"; "swap"; "ccx"; "cswap"; "measure"] ->
  q < - qc_num_qubits qc \/ qc_num_qubits qc <= q ->
  (m ∈ ["cx"; "cy"; "cz"; "swap"; "ccx"] -> target <> PyNone) ->
  exists e, apply_gate m gate_info (PyInt q) target params qc = (Raise e, qc).
Proof.
  intros Hm Hq Ht.
  pose proof (conversion_out_of_range _ _ Hq) as Hconv.
  assert (forall name ps rest, exists e,
            append_gate name ps (PyInt q :: rest) qc = (Raise e, qc)) as Happ.
  { intros. eapply append_gate_bad_operand; [apply list_elem_of_here | exact Hconv]. }
  destruct (mapped_gate_classes m Hm) as [H|[H|[H|[->|[->| ->]]]]].
  - rewrite apply_gate_one_qubit by done. apply Happ.
  - rewrite apply_gate_rotation by done. unfold bind.
    destruct (truthy params).
    + unfold lift. destruct (py_getitem0 params); [apply Happ | by eexists].
    + apply Happ.
  - rewrite apply_gate_two_qubit by done.
    assert (is_not_None target = true) as ->; [|apply Happ].
    destruct target; try reflexivity. exfalso. apply Ht; [|done].
    do 4 (apply elem_of_cons in H as [->|H]; [in_list|]). by apply elem_of_nil in H.
  - rewrite apply_gate_ccx. unfold bind, lift. simpl py_add_int. cbv beta iota.
    destruct (py_get gate_info _ _); [|by eexists].
    assert (is_not_None target = true) as ->; [|apply Happ].
    destruct target; try reflexivity. exfalso. apply Ht; [in_list|done].
  - rewrite apply_gate_cswap. unfold bind, lift. simpl py_add_int. cbv beta iota.
    destruct (py_get gate_info "swap1Qubit" _); [|by eexists].
    destruct (py_get gate_info "swap2Qubit" _); [|by eexists].
    apply Happ.
  - rewrite apply_gate_measure. unfold qc_measure, bind, qbit_argument_conversion.
    rewrite Hconv. by eexists.
Qed.

Lemma apply_gate_missing_target (m : string) (gate_info params : pyval) (q : Z)
    (qc : QuantumCircuit) :
  m ∈ ["cx"; "cy"; "cz"; "swap"; "ccx"] ->
  (exists d, gate_info = PyDict d) ->
  apply_gate m gate_info (PyInt q) PyNone params qc = (Ok tt, qc).
Proof.
  intros Hm [d ->].
  do 4 (apply elem_of_cons in Hm as [->|Hm]; [reflexivity|]).
  apply elem_of_cons in Hm as [->|Hm]; [reflexivity|]. by apply elem_of_nil in Hm.
Qed.

Lemma build_gate_known (d : gmap string pyval) (g m : string)
    (st : QuantumCircuit * list log_record) :
  default (PyStr EmptyString) (d !! "gate") = PyStr g ->
  GATE_MAP !! lower g = Some m ->
  build_gate (PyDict d) st =
    try_except
      (on_circuit (apply_gate m (PyDict d) (default (PyInt 0) (d !! "qubit"))
                     (default PyNone (d !! "targetQubit"))
                     (default (PyList []) (d !! "params"))))
      (fun e => logger (Error_applying_gate (lower g) e)) st.
Proof.
  intros Hg Hm. unfold build_gate, bind, lift, py_get.
  replace (match d !! "gate" with Some x => x | None => PyStr EmptyString end) with (PyStr g)
    by (rewrite <- Hg; by destruct (d !! "gate")).
  simpl py_lower. cbv beta iota. rewrite Hm. reflexivity.
Qed.

(** A two-qubit gate or [ccx] without target is passed over: no call, no
    log record. *)
Lemma build_gate_missing_target (d : gmap string pyval) (g m : string) (q : Z)
    (st : QuantumCircuit * list log_record) :
  default (PyStr EmptyString) (d !! "gate") = PyStr g ->
  GATE_MAP !! lower g = Some m ->
  m ∈ ["cx"; "cy"; "cz"; "swap"; "ccx"] ->
  default (PyInt 0) (d !! "qubit") = PyInt q ->
  default PyNone (d !! "targetQubit") = PyNone ->
  build_gate (PyDict d) st = (Ok tt, st).
Proof.
  intros Hg Hm Hclass Hq Ht. rewrite (build_gate_known d g m st Hg Hm), Hq, Ht.
  unfold try_except, on_circuit.
  rewrite apply_gate_missing_target by eauto. by destruct st.
Qed.

(** Without a target the two-qubit gates make no call, whatever the
    primary qubit is. *)
Lemma apply_gate_two_qubit_missing_target (m : string) (gate_info qubit params : pyval)
    (qc : QuantumCircuit) :
  m ∈ ["cx"; "cy"; "cz"; "swap"] ->
  apply_gate m gate_info qubit PyNone params qc = (Ok tt, qc).
Proof. intros Hm. by rewrite apply_gate_two_qubit. Qed.

(** For [ccx] the default of [control2Qubit], [qubit + 1], is evaluated
    before the target is looked at. *)
Lemma apply_gate_ccx_missing_target (d : gmap string pyval) (qubit params : pyval)
    (qc : QuantumCircuit) :
  apply_gate "ccx" (PyDict d) qubit PyNone params qc =
    if is_number qubit then (Ok tt, qc) else (Raise TypeError, qc).
Proof.
  rewrite apply_gate_ccx. unfold bind, lift.
  destruct qubit; simpl; try reflexivity; by destruct (d !! "control2Qubit").
Qed.



(** ** Default operands *)

Lemma append_gate_three_qubits (name : string) (a b c : Z) (qc : QuantumCircuit) :
  0 <= a < qc_num_qubits qc -> 0 <= b < qc_num_qubits qc -> 0 <= c < qc_num_qubits qc ->
  a <> b -> a <> c -> b <> c ->
  append_gate name [] [PyInt a; PyInt b; PyInt c] qc =
    (Ok tt, with_instruction qc {| instr_name := name; instr_params := [];
                                   instr_qubits := [a; b; c]; instr_clbits := [] |}).
Proof.
  intros Ha Hb Hc Hab Hac Hbc. unfold append_gate, bind, lift. simpl omapM.
  rewrite mapM_conversion. simpl omapM. rewrite !bit_index_in_range by done.
  simpl. unfold bind, _check_dups. simpl.
  rewrite (proj2 (Z.eqb_neq a b) Hab), (proj2 (Z.eqb_neq a c) Hac),
    (proj2 (Z.eqb_neq b c) Hbc). reflexivity.
Qed.



(** ** Concrete runs of the builder *)

(** C6, refuted as stated: a qubit count of zero builds a circuit, and a
    positive count does not protect the build from failing as a whole. *)
Lemma zero_qubits_build_and_bad_descriptor_aborts :
  build_circuit (PyInt 0) (PyList [])
    = (Ok {| qc_num_qubits := 0; qc_cregs := []; qc_data := [] |}, [])
  /\ build_circuit (PyInt 2) (PyList [json_object [("gate", PyInt 5)]])
       = (Raise AttributeError, []).
Proof. split; vm_compute; reflexivity. Qed.

Lemma build_fails_as_a_whole_witness :
  let h0 := json_object [("gate", PyStr "h"); ("qubit", PyInt 0)] in
  build_circuit (PyInt (-1)) (PyList [h0]) = (Raise CircuitError, [])
  /\ (exists qc lg, build_circuit (PyInt 2) (PyList [h0]) = (Ok qc, lg)
                    /\ qc_num_qubits qc = 2)
  /\ (exists lg, build_circuit (PyInt 2) (PyList [h0; PyInt 7; h0])
                   = (Raise AttributeError, lg)).
Proof.
  intros h0. split; [|split].
  - apply (proj1 (build_fails_as_a_whole (-1) [h0])). lia.
  - apply (proj1 (proj2 (build_fails_as_a_whole 2 [h0]))); [lia|].
    vm_compute; reflexivity.
  - apply (proj2 (proj2 (build_fails_as_a_whole 2 [h0; PyInt 7; h0]))
             ltac:(lia) [h0] (PyInt 7) [h0]); vm_compute; reflexivity.
Defined.





(** ** The circuit sent for the state vector *)

Lemma drop_final_ops_cons (i : Instruction) (rest : list Instruction) :
  drop_final_ops (i :: rest) =
    if is_final_op_type i
       && forallb (fun q => bool_decide (q ∉ (drop_final_ops rest).2)) (instr_qubits i)
    then drop_final_ops rest
    else (i :: (drop_final_ops rest).1,
          list_to_set (instr_qubits i) ∪ (drop_final_ops rest).2).
Proof. simpl. by destruct (drop_final_ops rest). Qed.

Lemma drop_final_ops_keeps_gates (l : list Instruction) :
  List.filter (fun i => negb (is_final_op_type i)) (drop_final_ops l).1
    = List.filter (fun i => negb (is_final_op_type i)) l.
Proof.
  induction l as [|i rest IH]; [reflexivity|].
  rewrite drop_final_ops_cons.
  destruct (is_final_op_type i) eqn:Hi; simpl; rewrite Hi; simpl.
  - destruct (forallb _ _); simpl; rewrite ?Hi; simpl; exact IH.
  - by rewrite IH.
Qed.

Lemma drop_final_ops_kept_further (i : Instruction) (rest : list Instruction) (x : Instruction) :
  x ∈ (drop_final_ops rest).1 -> x ∈ (drop_final_ops (i :: rest)).1.
Proof.
  intros Hx. rewrite drop_final_ops_cons.
  destruct (_ && _); [done|]. simpl. by apply list_elem_of_further.
Qed.

Lemma drop_final_ops_blocked_further (i : Instruction) (rest : list Instruction) (q : Z) :
  q ∈ (drop_final_ops rest).2 -> q ∈ (drop_final_ops (i :: rest)).2.
Proof.
  intros Hq. rewrite drop_final_ops_cons.
  destruct (_ && _); [done|]. simpl. apply elem_of_union. by right.
Qed.

Lemma drop_final_ops_blocks_gate_qubits (l : list Instruction) (g : Instruction) (q : Z) :
  g ∈ l -> is_final_op_type g = false -> q ∈ instr_qubits g ->
  q ∈ (drop_final_ops l).2.
Proof.
  intros Hin Hg Hq. induction l as [|i rest IH]; [by apply elem_of_nil in Hin|].
  apply elem_of_cons in Hin as [<-|Hin].
  - rewrite drop_final_ops_cons, Hg. simpl.
    apply elem_of_union. left. by apply elem_of_list_to_set.
  - apply drop_final_ops_blocked_further. by apply IH.
Qed.

(** A measurement followed by a gate on its qubit is not final. *)
Lemma drop_final_ops_keeps_mid_circuit (pre mid post : list Instruction)
    (m g : Instruction) (q : Z) :
  is_final_op_type g = false ->
  q ∈ instr_qubits m -> q ∈ instr_qubits g ->
  m ∈ (drop_final_ops (pre ++ m :: mid ++ g :: post)).1.
Proof.
  intros Hg Hqm Hqg. induction pre as [|i pre IH]; simpl app.
  - rewrite drop_final_ops_cons.
    assert (forallb (fun q' => bool_decide (q' ∉ (drop_final_ops (mid ++ g :: post)).2))
              (instr_qubits m) = false) as ->.
    { apply not_true_is_false. intros Hall.
      rewrite forallb_forall in Hall. specialize (Hall q).
      rewrite bool_decide_eq_true in Hall. apply Hall.
      - by apply list_elem_of_In.
      - apply (drop_final_ops_blocks_gate_qubits _ g); [|done..].
        apply elem_of_app. right. apply list_elem_of_here. }
    rewrite andb_false_r. simpl. apply list_elem_of_here.
  - by apply drop_final_ops_kept_further.
Qed.

Lemma drop_final_ops_all_final (finals : list Instruction) :
  forallb is_final_op_type finals = true -> drop_final_ops finals = ([], ∅).
Proof.
  induction finals as [|i rest IH]; [reflexivity|]. simpl forallb.
  intros [Hi Hrest]%andb_prop. rewrite drop_final_ops_cons, (IH Hrest), Hi.
  match goal with |- context [forallb ?f ?l] =>
    assert (forallb f l = true) as ->; [|reflexivity] end.
  apply forallb_forall. intros q _. apply bool_decide_eq_true. apply not_elem_of_empty.
Qed.

(** Measurements (and barriers) that close the circuit are all removed. *)
Lemma drop_final_ops_trailing (gates finals : list Instruction) :
  forallb (fun i => negb (is_final_op_type i)) gates = true ->
  forallb is_final_op_type finals = true ->
  (drop_final_ops (gates ++ finals)).1 = gates.
Proof.
  intros Hg Hf. induction gates as [|i gates IH]; simpl app.
  - by rewrite drop_final_ops_all_final.
  - simpl in Hg. apply andb_prop in Hg as [Hi Hg].
    rewrite drop_final_ops_cons. apply negb_true_iff in Hi. rewrite Hi. simpl.
    by rewrite IH.
Qed.

(** ** Orders of the dependency graph *)

Lemma reorders_Permutation (l l' : list Instruction) : reorders l l' -> l ≡ₚ l'.
Proof.
  induction 1 as [l|l1 a b l2 l' _ _ IH]; [reflexivity|].
  etransitivity; [|exact IH]. apply Permutation_app_head, perm_swap.
Qed.

Lemma reorders_nil (l' : list Instruction) : reorders [] l' -> l' = [].
Proof. intros H. apply reorders_Permutation in H. by apply Permutation_nil_l in H. Qed.

Lemma shares_wire_on_qubit (q : Z) (a b : Instruction) :
  on_qubit q a = true -> on_qubit q b = true -> shares_wire a b = true.
Proof.
  unfold on_qubit, shares_wire. rewrite !bool_decide_eq_true. intros Ha Hb.
  apply orb_true_iff. left. apply existsb_exists. exists q.
  split; [by apply list_elem_of_In | by apply bool_decide_eq_true].
Qed.

(** A selection of instructions no two of which are independent comes out
    of a reordering in the same order. *)
Lemma reorders_filter (P : Instruction -> bool) (l l' : list Instruction) :
  (forall a b, P a = true -> P b = true -> shares_wire a b = true) ->
  reorders l l' -> List.filter P l = List.filter P l'.
Proof.
  intros HP. induction 1 as [l|l1 a b l2 l' Hab _ IH]; [reflexivity|].
  rewrite <- IH. rewrite !List.filter_app. f_equal. simpl.
  destruct (P a) eqn:Ha, (P b) eqn:Hb; try reflexivity.
  rewrite (HP a b Ha Hb) in Hab. discriminate.
Qed.

Lemma reorders_common_qubit (q : Z) (l l' : list Instruction) :
  Forall (fun i => on_qubit q i = true) l -> reorders l l' -> l' = l.
Proof.
  intros Hl Hr.
  assert (forall k, Forall (fun i => on_qubit q i = true) k -> List.filter (on_qubit q) k = k)
    as Hall.
  { induction 1 as [|i k Hi _ IH]; simpl; [reflexivity|]. by rewrite Hi, IH. }
  assert (Forall (fun i => on_qubit q i = true) l') as Hl'
    by (by rewrite <- (reorders_Permutation _ _ Hr)).
  rewrite <- (Hall l' Hl'), <- (Hall l Hl). symmetry.
  apply reorders_filter; [|exact Hr]. intros a b. apply shares_wire_on_qubit.
Qed.

Lemma Permutation_List_filter {A} (P : A -> bool) (l l' : list A) :
  l ≡ₚ l' -> List.filter P l ≡ₚ List.filter P l'.
Proof.
  induction 1 as [|x l l' _ IH|x y l|l l' l'' _ IH1 _ IH2]; simpl.
  - reflexivity.
  - destruct (P x); [by constructor | done].
  - destruct (P x), (P y); try reflexivity. apply perm_swap.
  - by etransitivity.
Qed.

Lemma List_filter_andb {A} (P Q : A -> bool) (l : list A) :
  List.filter (fun x => P x && Q x) l = List.filter Q (List.filter P l).
Proof.
  induction l as [|x l IH]; simpl; [reflexivity|].
  destruct (P x); simpl; [destruct (Q x)|]; by rewrite IH.
Qed.

(** Renumbering classical bits changes nothing in what a selection by name
    and qubits sees of the instructions. *)
Lemma quantum_op_filter_with_clbits (P : Instruction -> bool) (f : Z -> Z)
    (l : list Instruction) :
  (forall i, P (with_clbits f i) = P i) ->
  quantum_op <$> List.filter P (with_clbits f <$> l) = quantum_op <$> List.filter P l.
Proof.
  intros HP. induction l as [|i l IH]; [reflexivity|].
  rewrite fmap_cons. simpl List.filter. rewrite HP.
  destruct (P i); rewrite ?fmap_cons, IH; reflexivity.
Qed.

(** ** The save instruction *)

Lemma all_qubits_nil (qc : QuantumCircuit) : qc_num_qubits qc <= 0 -> all_qubits qc = [].
Proof.
  intros H. unfold all_qubits. by replace (Z.to_nat (qc_num_qubits qc)) with 0%nat by lia.
Qed.

Lemma all_qubits_cons (qc : QuantumCircuit) :
  0 < qc_num_qubits qc -> exists q qs, all_qubits qc = q :: qs.
Proof.
  intros H. unfold all_qubits.
  destruct (Z.to_nat (qc_num_qubits qc)) as [|k] eqn:Hk; [lia|]. simpl. by eexists _, _.
Qed.

(** With a qubit in the circuit the save instruction is added and
    [state_circuit_of] is the circuit sent. *)
Lemma state_circuit_sent (E : Environment) (qc : QuantumCircuit) :
  0 < qc_num_qubits qc ->
  save_statevector (remove_final_measurements E (qc_copy qc)) = Ok (state_circuit_of E qc).
Proof.
  intros H. unfold save_statevector, state_circuit_of. cbv zeta.
  destruct (all_qubits_cons (remove_final_measurements E (qc_copy qc)) H) as (q & qs & Hq).
  by rewrite Hq.
Qed.

Lemma state_circuit_refused (E : Environment) (qc : QuantumCircuit) :
  qc_num_qubits qc <= 0 ->
  save_statevector (remove_final_measurements E (qc_copy qc)) = Raise ValueError.
Proof.
  intros H. unfold save_statevector.
  by rewrite (all_qubits_nil (remove_final_measurements E (qc_copy qc)) H).
Qed.

(** ** Simulation requests *)

Lemma py_get_dict (d : gmap string pyval) (key : string) (v : pyval) :
  py_get (PyDict d) key v = Ok (default v (d !! key)).
Proof. simpl. by destruct (d !! key). Qed.

Lemma bind_lift_Ok {S A B} (a : A) (k : A -> SE S B) : bind (lift (Ok a)) k = k a.
Proof. reflexivity. Qed.

Section Simulation.

Variable E : Environment.

(** A circuit without qubits is refused by the save instruction, before
    anything is asked of the simulator. *)
Lemma run_simulation_no_qubits (qc : QuantumCircuit) (shots : pyval) (w : world) :
  qc_num_qubits qc <= 0 -> run_simulation E qc shots w = (Raise ValueError, w).
Proof. intros H. unfold run_simulation. by rewrite (state_circuit_refused E qc H). Qed.

(** What a successful [run_simulation] did. *)
Lemma run_simulation_ok (qc : QuantumCircuit) (shots : pyval) (w w' : world) (res : results) :
  run_simulation E qc shots w = (Ok res, w') ->
  0 < qc_num_qubits qc /\
  exists t r sv t' r' cs,
    transpile E (state_circuit_of E qc) = Ok t /\
    simulator_run E t (PyInt 1) = Ok r /\
    get_statevector r = Ok sv /\
    transpile E (measurement_circuit_of qc) = Ok t' /\
    simulator_run E t' shots = Ok r' /\
    get_counts r' = Ok cs /\
    statevector_real res = sv.*1 /\ statevector_imag res = sv.*2 /\
    probabilities res = calculate_probabilities E (qc_num_qubits qc) sv /\
    counts res = cs /\
    calls w' = calls w ++ [Call_transpile (state_circuit_of E qc); Call_run t (PyInt 1);
                           Call_transpile (measurement_circuit_of qc); Call_run t' shots].
Proof.
  destruct (Z.ltb_spec 0 (qc_num_qubits qc)) as [Hn|Hn];
    [|by rewrite (run_simulation_no_qubits qc shots w Hn)].
  intros Hrun. split; [exact Hn|]. revert Hrun.
  unfold run_simulation. rewrite (state_circuit_sent E qc Hn), bind_lift_Ok.
  unfold call_transpile, call_run, bind, lift, record_call, ret. simpl.
  destruct (transpile E (state_circuit_of E qc)) as [t|e] eqn:Ht; [|discriminate].
  destruct (simulator_run E t (PyInt 1)) as [r|e] eqn:Hr; [|discriminate].
  destruct (get_statevector r) as [sv|e] eqn:Hsv; [|discriminate].
  destruct (transpile E (measurement_circuit_of qc)) as [t'|e] eqn:Ht'; [|discriminate].
  destruct (simulator_run E t' shots) as [r'|e] eqn:Hr'; [|discriminate].
  destruct (get_counts r') as [cs|e] eqn:Hcs; [|discriminate].
  destruct (omapM _ cs) as [mp|e]; [|discriminate].
  intros [= <- <-]. exists t, r, sv, t', r', cs. simpl.
  repeat (split; [done|]). by rewrite <- !app_assoc.
Qed.

(** The simulator calls made once the exact phase has succeeded: the
    sampling run is issued with [shots] as given, whatever it is. *)
Lemma run_simulation_calls (qc : QuantumCircuit) (shots : pyval) (w : world)
    (t t' : QuantumCircuit) (r : AerResult) (sv : list (float * float)) :
  0 < qc_num_qubits qc ->
  transpile E (state_circuit_of E qc) = Ok t ->
  simulator_run E t (PyInt 1) = Ok r ->
  get_statevector r = Ok sv ->
  transpile E (measurement_circuit_of qc) = Ok t' ->
  let w' := (run_simulation E qc shots w).2 in
  calls w' = calls w ++ [Call_transpile (state_circuit_of E qc); Call_run t (PyInt 1);
                         Call_transpile (measurement_circuit_of qc); Call_run t' shots]
  /\ log w' = log w /\ recent_jobs w' = recent_jobs w.
Proof.
  intros Hn Ht Hr Hsv Ht'.
  unfold run_simulation. rewrite (state_circuit_sent E qc Hn), bind_lift_Ok.
  unfold call_transpile, call_run, bind, lift, record_call, ret. simpl.
  rewrite Ht, Hr, Hsv, Ht'.
  destruct (simulator_run E t' shots) as [r'|e]; simpl;
    [destruct (get_counts r') as [cs|e]; simpl;
       [destruct (omapM _ cs) as [mp|e]; simpl|]|];
    by rewrite <- !app_assoc.
Qed.

(** The first simulator calls of [run_simulation], whatever follows. *)
Lemma run_simulation_first_calls (qc : QuantumCircuit) (shots : pyval) (w : world)
    (t : QuantumCircuit) :
  0 < qc_num_qubits qc ->
  transpile E (state_circuit_of E qc) = Ok t ->
  exists rest,
    calls (run_simulation E qc shots w).2
      = calls w ++ Call_transpile (state_circuit_of E qc) :: Call_run t (PyInt 1) :: rest.
Proof.
  intros Hn Ht.
  unfold run_simulation. rewrite (state_circuit_sent E qc Hn), bind_lift_Ok.
  unfold call_transpile, call_run, bind, lift, record_call, ret. simpl.
  rewrite Ht.
  destruct (simulator_run E t (PyInt 1)) as [r|e]; simpl;
    [|exists []; by rewrite <- !app_assoc].
  destruct (get_statevector r) as [sv|e]; simpl;
    [|exists []; by rewrite <- !app_assoc].
  destruct (transpile E (measurement_circuit_of qc)) as [t'|e]; simpl;
    [|eexists; by rewrite <- !app_assoc].
  destruct (simulator_run E t' shots) as [r'|e]; simpl;
    [destruct (get_counts r') as [cs|e]; simpl;
       [destruct (omapM _ cs) as [mp|e]; simpl|]|];
    eexists; by rewrite <- !app_assoc.
Qed.

(** The job list is out of the simulation's reach, and so is the log. *)
Lemma run_simulation_keeps_jobs (qc : QuantumCircuit) (shots : pyval) (w : world) :
  recent_jobs (run_simulation E qc shots w).2 = recent_jobs w
  /\ log (run_simulation E qc shots w).2 = log w.
Proof.
  unfold run_simulation. unfold bind at 1, lift at 1.
  destruct (save_statevector _) as [sc|e]; [|done].
  unfold call_transpile, call_run, bind, lift, record_call, ret. simpl.
  destruct (transpile E sc) as [t|e]; simpl; [|done].
  destruct (simulator_run E t (PyInt 1)) as [r|e]; simpl; [|done].
  destruct (get_statevector r) as [sv|e]; simpl; [|done].
  destruct (transpile E (measurement_circuit_of qc)) as [t'|e]; simpl; [|done].
  destruct (simulator_run E t' shots) as [r'|e]; simpl; [|done].
  destruct (get_counts r') as [cs|e]; simpl; [|done].
  by destruct (omapM _ cs).
Qed.

(** The body of [run_circuit] once the request is read and the circuit
    built. *)
Lemma run_circuit_unfolded (d : gmap string pyval) (w : world) (n_gates : nat)
    (qc : QuantumCircuit) (lg : list log_record) :
  let num_qubits := default (PyInt 2) (d !! "numQubits") in
  let gates := default (PyList []) (d !! "gates") in
  let shots := default (PyInt 1024) (d !! "shots") in
  py_len gates = Ok n_gates ->
  build_circuit num_qubits gates = (Ok qc, lg) ->
  run_circuit E (PyDict d) w =
    match run_simulation E qc shots
            {| log := (log w ++ [Info_running num_qubits n_gates shots]) ++ lg;
               recent_jobs := recent_jobs w; calls := calls w |} with
    | (Ok res, w2) =>
        let w3 := {| log := log w2;
                     recent_jobs := jobs_with (job_of E num_qubits n_gates shots)
                                              (recent_jobs w2);
                     calls := calls w2 |} in
        let failed e :=
          (Ok (Failure e 500),
           {| log := log w3 ++ [Error_running_circuit e];
              recent_jobs := recent_jobs w3; calls := calls w3 |}) in
        match qasm E qc with
        | Ok text =>
            match depth E qc with
            | Ok dp =>
                (Ok (Run_success (job_id (job_of E num_qubits n_gates shots)) res text dp
                       (length (qc_data qc))), w3)
            | Raise e => failed e
            end
        | Raise e => failed e
        end
    | (Raise e, w2) =>
        (Ok (Failure e 500),
         {| log := log w2 ++ [Error_running_circuit e];
            recent_jobs := recent_jobs w2; calls := calls w2 |})
    end.
Proof.
  intros num_qubits gates shots Hlen Hbuild.
  unfold run_circuit. rewrite !py_get_dict. fold num_qubits gates shots.
  unfold try_except. rewrite !bind_lift_Ok. rewrite Hlen, bind_lift_Ok.
  unfold bind at 1, write_log at 1. unfold bind at 1, call_build_circuit.
  rewrite Hbuild. unfold bind at 1, write_log at 1, lift.
  unfold bind at 1. cbn [log recent_jobs calls].
  match goal with |- context [run_simulation E qc shots ?w0] =>
    destruct (run_simulation E qc shots w0) as [[res|e] w2] end; [|reflexivity].
  unfold bind, store_job, lift, ret, jobs_with, job_of. cbn [log recent_jobs calls].
  destruct (qasm E qc); [destruct (depth E qc)|]; reflexivity.
Qed.

(** [run_circuit] from the point where the request has been read and the
    circuit built. *)
Lemma run_circuit_after_build (d : gmap string pyval) (w : world)
    (n_gates : nat) (qc : QuantumCircuit) (lg : list log_record) :
  let num_qubits := default (PyInt 2) (d !! "numQubits") in
  let gates := default (PyList []) (d !! "gates") in
  let shots := default (PyInt 1024) (d !! "shots") in
  py_len gates = Ok n_gates ->
  build_circuit num_qubits gates = (Ok qc, lg) ->
  let w1 := {| log := (log w ++ [Info_running num_qubits n_gates shots]) ++ lg;
               recent_jobs := recent_jobs w; calls := calls w |} in
  calls (run_circuit E (PyDict d) w).2 = calls (run_simulation E qc shots w1).2
  /\ exists rest,
       log (run_circuit E (PyDict d) w).2
         = log w ++ Info_running num_qubits n_gates shots :: lg ++ rest.
Proof.
  intros num_qubits gates shots Hlen Hbuild w1.
  rewrite (run_circuit_unfolded d w n_gates qc lg Hlen Hbuild).
  fold num_qubits gates shots w1.
  pose proof (proj2 (run_simulation_keeps_jobs qc shots w1)) as Hlog.
  destruct (run_simulation E qc shots w1) as [[res|e] w2]; simpl in *.
  - destruct (qasm E qc); [destruct (depth E qc)|]; simpl;
      (split; [reflexivity|]); rewrite Hlog;
      [exists []; by rewrite app_nil_r, <- app_assoc | ..];
      eexists; by rewrite <- !app_assoc.
  - split; [reflexivity|]. rewrite Hlog. eexists. by rewrite <- !app_assoc.
Qed.

End Simulation.

Section Requests.

Variable E : Environment.

Lemma run_circuit_simulation_raises (d : gmap string pyval) (w w2 : world)
    (n_gates : nat) (qc : QuantumCircuit) (lg : list log_record) (e : exn) :
  let num_qubits := default (PyInt 2) (d !! "numQubits") in
  let gates := default (PyList []) (d !! "gates") in
  let shots := default (PyInt 1024) (d !! "shots") in
  py_len gates = Ok n_gates ->
  build_circuit num_qubits gates = (Ok qc, lg) ->
  run_simulation E qc shots
    {| log := (log w ++ [Info_running num_qubits n_gates shots]) ++ lg;
       recent_jobs := recent_jobs w; calls := calls w |} = (Raise e, w2) ->
  run_circuit E (PyDict d) w
    = (Ok (Failure e 500),
       {| log := log w2 ++ [Error_running_circuit e];
          recent_jobs := recent_jobs w2; calls := calls w2 |}).
Proof.
  intros num_qubits gates shots Hlen Hbuild Hsim.
  rewrite (run_circuit_unfolded E d w n_gates qc lg Hlen Hbuild).
  fold num_qubits gates shots. by rewrite Hsim.
Qed.

(** The simulator calls of [parse_qasm] are those of the simulation. *)
Lemma parse_qasm_calls (d : gmap string pyval) (w : world) (qc : QuantumCircuit) :
  let qasm_code := default (PyStr EmptyString) (d !! "qasm") in
  let shots := default (PyInt 1024) (d !! "shots") in
  from_qasm_str E qasm_code = Ok qc ->
  calls (parse_qasm E (PyDict d) w).2 = calls (run_simulation E qc shots w).2.
Proof.
  intros qasm_code shots Hfrom.
  unfold parse_qasm, try_except. rewrite !py_get_dict. fold qasm_code shots.
  rewrite !bind_lift_Ok, Hfrom, bind_lift_Ok. unfold bind at 1.
  destruct (run_simulation E qc shots w) as [[res|e] w2]; [|reflexivity].
  unfold bind, lift, ret. by destruct (depth E qc).
Qed.



(** C1, at requests above the advertised ceiling: [status] reports
    [max_qubits] 25, yet for a request of [n > 25] qubits [run_circuit]
    builds the circuit and has the simulator run a state-vector circuit
    over all [n] qubits. *)
Theorem qubit_ceiling_is_not_enforced (w : world) (n : Z) (t : QuantumCircuit) :
  25 < n ->
  let qc := {| qc_num_qubits := n; qc_cregs := [n]; qc_data := [] |} in
  transpile E (state_circuit_of E qc) = Ok t ->
  max_qubits (status E) = 25 /\
  qc_num_qubits (state_circuit_of E qc) = n /\
  exists rest,
    calls (run_circuit E
             (json_object [("numQubits", PyInt n); ("gates", PyList []);
                           ("shots", PyInt 1024)]) w).2
      = calls w ++ Call_transpile (state_circuit_of E qc) :: Call_run t (PyInt 1) :: rest.
Proof.
  intros Hn qc Ht. split; [reflexivity|]. split; [reflexivity|].
  unfold json_object.
  set (d := list_to_map [("numQubits", PyInt n); ("gates", PyList []);
                         ("shots", PyInt 1024)] : gmap string pyval).
  assert (d !! "numQubits" = Some (PyInt n)) as Hd1 by (vm_compute; reflexivity).
  assert (d !! "gates" = Some (PyList [])) as Hd2 by (vm_compute; reflexivity).
  assert (build_circuit (PyInt n) (PyList []) = (Ok qc, [])) as Hbuild.
  { unfold build_circuit, QuantumCircuit_new, register_size, obind.
    rewrite (proj2 (Z.ltb_ge n 0)) by lia. rewrite (proj2 (Z.eqb_neq n 0)) by lia.
    reflexivity. }
  rewrite (proj1 (run_circuit_after_build E d w 0 qc [] ltac:(by rewrite Hd2)
                    ltac:(by rewrite Hd1, Hd2))).
  match goal with |- context [run_simulation E qc ?s ?w1] =>
    apply (run_simulation_first_calls E qc s w1 t); [simpl; lia | exact Ht] end.
Qed.

(** C10: the fields of a request are read with fixed defaults, [numQubits]
    2, [gates] the empty list and [shots] 1024 ([qasm] the empty text and
    [shots] 1024 in [parse_qasm]).  A request that lacks a field is handled
    exactly as the request carrying the default for it, and the values so
    read are the ones that are logged, built from and simulated: the
    circuit is [build_circuit] of the qubit count and gate list read, and
    the sampling run is requested with the shot count read. *)
Theorem absent_fields_take_defaults (d : gmap string pyval) (w : world) :
  let num_qubits := default (PyInt 2) (d !! "numQubits") in
  let gates := default (PyList []) (d !! "gates") in
  let shots := default (PyInt 1024) (d !! "shots") in
  let qasm_code := default (PyStr EmptyString) (d !! "qasm") in
  ((d !! "numQubits" = None ->
      run_circuit E (PyDict d) w = run_circuit E (PyDict (<["numQubits" := PyInt 2]> d)) w) /\
   (d !! "gates" = None ->
      run_circuit E (PyDict d) w = run_circuit E (PyDict (<["gates" := PyList []]> d)) w) /\
   (d !! "shots" = None ->
      run_circuit E (PyDict d) w = run_circuit E (PyDict (<["shots" := PyInt 1024]> d)) w) /\
   (d !! "shots" = None ->
      parse_qasm E (PyDict d) w = parse_qasm E (PyDict (<["shots" := PyInt 1024]> d)) w)) /\
  (forall n_gates qc lg t r sv t',
     py_len gates = Ok n_gates ->
     build_circuit num_qubits gates = (Ok qc, lg) ->
     0 < qc_num_qubits qc ->
     transpile E (state_circuit_of E qc) = Ok t ->
     simulator_run E t (PyInt 1) = Ok r ->
     get_statevector r = Ok sv ->
     transpile E (measurement_circuit_of qc) = Ok t' ->
     (exists rest,
        log (run_circuit E (PyDict d) w).2
          = log w ++ Info_running num_qubits n_gates shots :: lg ++ rest) /\
     calls (run_circuit E (PyDict d) w).2
       = calls w ++ [Call_transpile (state_circuit_of E qc); Call_run t (PyInt 1);
                     Call_transpile (measurement_circuit_of qc); Call_run t' shots]) /\
  (forall qc t r sv t',
     from_qasm_str E qasm_code = Ok qc ->
     0 < qc_num_qubits qc ->
     transpile E (state_circuit_of E qc) = Ok t ->
     simulator_run E t (PyInt 1) = Ok r ->
     get_statevector r = Ok sv ->
     transpile E (measurement_circuit_of qc) = Ok t' ->
     calls (parse_qasm E (PyDict d) w).2
       = calls w ++ [Call_transpile (state_circuit_of E qc); Call_run t (PyInt 1);
                     Call_transpile (measurement_circuit_of qc); Call_run t' shots]).
Proof.
  intros num_qubits gates shots qasm_code. split; [|split].
  - repeat split; intros H; unfold run_circuit, parse_qasm, py_get;
      rewrite H, lookup_insert_eq, ?lookup_insert_ne by discriminate; reflexivity.
  - intros n_gates qc lg t r sv t' Hlen Hbuild Hn Ht Hr Hsv Ht'.
    destruct (run_circuit_after_build E d w n_gates qc lg Hlen Hbuild) as [Hcalls Hlog].
    split; [exact Hlog|]. rewrite Hcalls.
    match goal with |- context [run_simulation E qc ?s ?w1] =>
      exact (proj1 (run_simulation_calls E qc s w1 t t' r sv Hn Ht Hr Hsv Ht')) end.
  - intros qc t r sv t' Hfrom Hn Ht Hr Hsv Ht'.
    rewrite (parse_qasm_calls d w qc Hfrom).
    exact (proj1 (run_simulation_calls E qc _ w t t' r sv Hn Ht Hr Hsv Ht')).
Qed.

End Requests.

(** ** Concrete requests *)





Lemma qubit_ceiling_is_not_enforced_witness :
  let qc := {| qc_num_qubits := 26; qc_cregs := [26]; qc_data := [] |} in
  max_qubits (status idle_env) = 25 /\
  qc_num_qubits (state_circuit_of idle_env qc) = 26 /\
  exists rest,
    calls (run_circuit idle_env
             (json_object [("numQubits", PyInt 26); ("gates", PyList []);
                           ("shots", PyInt 1024)]) empty_world).2
      = calls empty_world
          ++ Call_transpile (state_circuit_of idle_env qc)
             :: Call_run (state_circuit_of idle_env qc) (PyInt 1) :: rest.
Proof.
  intros qc.
  apply (qubit_ceiling_is_not_enforced idle_env empty_world 26 (state_circuit_of idle_env qc)).
  - lia.
  - reflexivity.
Defined.

(** The empty request: two qubits and no gate are built from, and 1024
    shots are asked of the simulator. *)
Lemma absent_fields_take_defaults_witness :
  let qc := {| qc_num_qubits := 2; qc_cregs := [2]; qc_data := [] |} in
  (exists rest,
     log (run_circuit idle_env (PyDict ∅) empty_world).2
       = log empty_world ++ Info_running (PyInt 2) 0 (PyInt 1024) :: [] ++ rest)
  /\ calls (run_circuit idle_env (PyDict ∅) empty_world).2
       = calls empty_world
           ++ [Call_transpile (state_circuit_of idle_env qc);
               Call_run (state_circuit_of idle_env qc) (PyInt 1);
               Call_transpile (measurement_circuit_of qc);
               Call_run (measurement_circuit_of qc) (PyInt 1024)].
Proof.
  intros qc.
  assert (exists r, simulator_run idle_env (state_circuit_of idle_env qc) (PyInt 1) = Ok r
                    /\ get_statevector r = Ok (zero_statevector 2)) as (r & Hr & Hsv)
    by (eexists; split; vm_compute; reflexivity).
  pose proof (proj1 (proj2 (absent_fields_take_defaults idle_env ∅ empty_world))
                0%nat qc [] (state_circuit_of idle_env qc) r (zero_statevector 2)
                (measurement_circuit_of qc)) as H.
  rewrite !lookup_empty in H. simpl default in H.
  apply H; first [exact Hr | exact Hsv | reflexivity | (simpl; lia)].
Defined.

(* ================================================================= *)
(** * Further properties of the builder *)

Lemma lower_ascii_caseless (a b : ascii) :
  Ascii.eqb a b
  || is_ascii_letter a && is_ascii_letter b
     && ((N_of_ascii a =? N_of_ascii b + 32) || (N_of_ascii b =? N_of_ascii a + 32))%N
    = true ->
  lower_ascii a = lower_ascii b.
Proof.
  intros H. apply orb_true_iff in H as [H|H]; [by apply Ascii.eqb_eq in H as ->|].
  apply andb_true_iff in H as [H Hd]. apply andb_true_iff in H as [Ha Hb].
  unfold is_ascii_letter in Ha, Hb. cbv zeta in Ha, Hb.
  rewrite !orb_true_iff, !andb_true_iff, !N.leb_le in Ha, Hb.
  rewrite orb_true_iff, !N.eqb_eq in Hd.
  unfold lower_ascii. cbv zeta.
  destruct Hd as [Hd|Hd].
  - assert ((65 <=? N_of_ascii a) && (N_of_ascii a <=? 90) = false)%N as ->
      by (apply andb_false_iff; rewrite !N.leb_gt; lia).
    assert ((65 <=? N_of_ascii b) && (N_of_ascii b <=? 90) = true)%N as ->
      by (apply andb_true_iff; rewrite !N.leb_le; lia).
    by rewrite <- Hd, ascii_N_embedding.
  - assert ((65 <=? N_of_ascii b) && (N_of_ascii b <=? 90) = false)%N as ->
      by (apply andb_false_iff; rewrite !N.leb_gt; lia).
    assert ((65 <=? N_of_ascii a) && (N_of_ascii a <=? 90) = true)%N as ->
      by (apply andb_true_iff; rewrite !N.leb_le; lia).
    by rewrite <- Hd, ascii_N_embedding.
Qed.

(** Names equal up to letter case have the same lower-case form. *)
Lemma lower_caseless (s t : string) : caseless_eqb s t = true -> lower s = lower t.
Proof.
  revert t. induction s as [|a s IH]; intros [|b t]; simpl; try discriminate;
    [reflexivity|].
  intros [Hc Hrest]%andb_true_iff.
  by rewrite (lower_ascii_caseless a b Hc), (IH t Hrest).
Qed.

(** The keys of the gate table are in lower case. *)
Lemma GATE_MAP_keys_lower (key m : string) : GATE_MAP !! key = Some m -> lower key = key.
Proof.
  intros H. apply elem_of_list_to_map_2 in H.
  repeat (apply elem_of_cons in H as [H|H]; [by injection H as -> _|]).
  by apply elem_of_nil in H.
Qed.

(** The [gate] entry of a descriptor plays no part once the gate is
    dispatched. *)
Lemma apply_gate_ignores_gate_entry (m : string) (d : gmap string pyval) (v : pyval)
    (qubit target_qubit params : pyval) :
  apply_gate m (PyDict (<["gate" := v]> d)) qubit target_qubit params
    = apply_gate m (PyDict d) qubit target_qubit params.
Proof.
  unfold apply_gate, py_get. rewrite !lookup_insert_ne by discriminate. reflexivity.
Qed.

Lemma build_gate_with_gate_entry (d : gmap string pyval) (g : string)
    (st : QuantumCircuit * list log_record) :
  build_gate (PyDict (<["gate" := PyStr g]> d)) st =
    match GATE_MAP !! lower g with
    | Some m =>
        try_except
          (on_circuit (apply_gate m (PyDict d) (default (PyInt 0) (d !! "qubit"))
                         (default PyNone (d !! "targetQubit"))
                         (default (PyList []) (d !! "params"))))
          (fun e => logger (Error_applying_gate (lower g) e)) st
    | None => (Ok tt, (st.1, st.2 ++ [Warning_unknown_gate (lower g)]))
    end.
Proof.
  destruct (GATE_MAP !! lower g) as [m|] eqn:Hm.
  - rewrite (build_gate_known _ g m st); [|by rewrite lookup_insert_eq|done].
    rewrite !lookup_insert_ne by discriminate.
    unfold try_except, on_circuit. by rewrite apply_gate_ignores_gate_entry.
  - apply build_gate_unknown; [by rewrite lookup_insert_eq|done].
Qed.

(** X1: gate names are matched whatever the case of their letters: a
    descriptor whose name is a key of [GATE_MAP] written in any mix of upper
    and lower case is dispatched as that key is mapped, with the lower-case
    key in the log record of a failure, so it is handled exactly as the
    descriptor that names the key itself. *)
Theorem gate_name_case_is_irrelevant (d : gmap string pyval) (g key m : string)
    (st : QuantumCircuit * list log_record) :
  caseless_eqb g key = true ->
  GATE_MAP !! key = Some m ->
  build_gate (PyDict (<["gate" := PyStr g]> d)) st
    = try_except
        (on_circuit (apply_gate m (PyDict d) (default (PyInt 0) (d !! "qubit"))
                       (default PyNone (d !! "targetQubit"))
                       (default (PyList []) (d !! "params"))))
        (fun e => logger (Error_applying_gate key e)) st
  /\ build_gate (PyDict (<["gate" := PyStr g]> d)) st
       = build_gate (PyDict (<["gate" := PyStr key]> d)) st.
Proof.
  intros Hc Hm.
  pose proof (GATE_MAP_keys_lower key m Hm) as Hkey.
  assert (lower g = key) as Hg by (by rewrite (lower_caseless g key Hc)).
  rewrite !build_gate_with_gate_entry, Hg, Hkey, Hm. by split.
Qed.

Lemma gate_name_case_is_irrelevant_witness :
  let d : gmap string pyval :=
    list_to_map [("qubit", PyInt 0); ("targetQubit", PyInt 1)] in
  let qc := {| qc_num_qubits := 2; qc_cregs := [2]; qc_data := [] |} in
  build_gate (PyDict (<["gate" := PyStr "CnOt"]> d)) (qc, [])
    = (Ok tt,
       ({| qc_num_qubits := 2; qc_cregs := [2];
           qc_data := [{| instr_name := "cx"; instr_params := [];
                          instr_qubits := [0; 1]; instr_clbits := [] |}] |}, [])).
Proof.
  intros d qc.
  rewrite (proj1 (gate_name_case_is_irrelevant d "CnOt" "cnot" "cx" (qc, [])
                    eq_refl eq_refl)).
  vm_compute; reflexivity.
Defined.



(** X3: a rotation gate reads only the first entry of [params]; further
    entries are ignored. *)
Theorem rotation_reads_first_parameter_only (d : gmap string pyval) (g : string)
    (a : pyval) (rest : list pyval) (st : QuantumCircuit * list log_record) :
  lower g ∈ ["rx"; "ry"; "rz"] ->
  build_gate (PyDict (<["params" := PyList (a :: rest)]> (<["gate" := PyStr g]> d))) st
    = build_gate (PyDict (<["params" := PyList [a]]> (<["gate" := PyStr g]> d))) st.
Proof.
  intros Hrot.
  pose proof (GATE_MAP_rotation _ Hrot) as Hm.
  rewrite !(build_gate_known _ g (lower g) st)
    by (rewrite ?lookup_insert_ne, ?lookup_insert_eq by discriminate; done).
  rewrite !lookup_insert_eq, !(lookup_insert_ne _ "params") by discriminate.
  unfold try_except, on_circuit.
  rewrite !(apply_gate_rotation _ _ _ _ _ Hrot). reflexivity.
Qed.

Lemma rotation_reads_first_parameter_only_witness :
  let st := ({| qc_num_qubits := 1; qc_cregs := [1]; qc_data := [] |}, []) in
  build_gate (PyDict (<["params" := PyList [PyInt 1; PyInt 2]]> (<["gate" := PyStr "Ry"]> ∅))) st
    = build_gate (PyDict (<["params" := PyList [PyInt 1]]> (<["gate" := PyStr "Ry"]> ∅))) st.
Proof.
  intros st. apply (rotation_reads_first_parameter_only ∅ "Ry" (PyInt 1) [PyInt 2] st).
  in_list.
Defined.

(** ** What the gate calls do to the circuit *)

Lemma circuit_grows_refl (qc : QuantumCircuit) : circuit_grows qc qc.
Proof. exists []. split; [|constructor]. destruct qc; simpl. by rewrite app_nil_r. Qed.

Lemma circuit_grows_trans (a b c : QuantumCircuit) :
  circuit_grows a b -> circuit_grows b c -> circuit_grows a c.
Proof.
  intros (l1 & -> & H1) (l2 & -> & H2). exists (l1 ++ l2). simpl.
  split; [by rewrite app_assoc|]. apply Forall_app. split; [done|].
  unfold qc_num_clbits in *. simpl in H2. done.
Qed.

Lemma circuit_grows_append (qc : QuantumCircuit) (i : Instruction) :
  instruction_fits (qc_num_qubits qc) (qc_num_clbits qc) i ->
  circuit_grows qc (with_instruction qc i).
Proof. intros Hi. exists [i]. split; [reflexivity|]. by constructor. Qed.

Lemma circuit_grows_registers (qc qc' : QuantumCircuit) :
  circuit_grows qc qc' ->
  qc_num_qubits qc' = qc_num_qubits qc /\ qc_num_clbits qc' = qc_num_clbits qc.
Proof. by intros (l & -> & _). Qed.

Lemma bit_index_range (n i q : Z) : bit_index n i = Ok q -> 0 <= q < n.
Proof.
  unfold bit_index.
  destruct (Z.leb_spec 0 i), (Z.ltb_spec i n), (Z.leb_spec (- n) i), (Z.ltb_spec i 0);
    simpl; intros [= <-]; lia.
Qed.

Lemma omapM_Forall {A B} (f : A -> outcome B) (P : B -> Prop) (l : list A) (r : list B) :
  (forall a b, f a = Ok b -> P b) -> omapM f l = Ok r -> Forall P r.
Proof.
  intros Hf. revert r. induction l as [|a l IH]; simpl; intros r.
  - intros [= <-]. constructor.
  - destruct (f a) as [b|e] eqn:Hb; simpl; [|discriminate].
    destruct (omapM f l) as [bs|e]; simpl; [|discriminate].
    intros [= <-]. constructor; [by eapply Hf | by apply IH].
Qed.

Lemma bit_argument_conversion_range (n : Z) (specifier : pyval) (l : list Z) :
  bit_argument_conversion n specifier = Ok l -> Forall (fun q => 0 <= q < n) l.
Proof.
  assert (forall v q, bit_argument_conversion_scalar n v = Ok q -> 0 <= q < n) as Hs.
  { intros v q. destruct v; simpl; try discriminate; apply bit_index_range. }
  destruct specifier as [|b|i|f|s|vs|d]; simpl; try discriminate.
  - destruct (bit_index n (Z_of_bool b)) as [q|] eqn:Hq; simpl; [|discriminate].
    intros [= <-]. constructor; [by eapply bit_index_range | constructor].
  - destruct (bit_index n i) as [q|] eqn:Hq; simpl; [|discriminate].
    intros [= <-]. constructor; [by eapply bit_index_range | constructor].
  - by apply omapM_Forall.
  - by apply omapM_Forall.
  - by apply omapM_Forall.
Qed.

Lemma has_dups_NoDup (l : list Z) : has_dups l = false -> NoDup l.
Proof.
  induction l as [|x l IH]; simpl; [constructor|].
  intros [Hx Hl]%orb_false_elim. constructor; [|by apply IH].
  intros Hin. apply not_true_iff_false in Hx. apply Hx.
  apply existsb_exists. exists x. split; [by apply list_elem_of_In | apply Z.eqb_refl].
Qed.

Lemma Forall_zip_with_cons {A} (P : A -> Prop) (xs : list A) (ls : list (list A)) :
  Forall P xs -> Forall (Forall P) ls -> Forall (Forall P) (zip_with cons xs ls).
Proof.
  intros Hx. revert ls. induction Hx as [|x xs Hx _ IH]; intros ls Hls; simpl.
  - constructor.
  - destruct Hls as [|l ls Hl Hls]; constructor; [by constructor | by apply IH].
Qed.

Lemma Forall_broadcast_columns (P : Z -> Prop) (k : nat) (qargs : list (list Z)) :
  Forall (Forall P) qargs ->
  Forall (Forall P) (foldr (zip_with cons) (replicate k []) qargs).
Proof.
  induction 1 as [|q qs Hq _ IH]; simpl.
  - apply Forall_replicate. constructor.
  - by apply Forall_zip_with_cons.
Qed.

Lemma gate_broadcast_arguments_range (P : Z -> Prop) (qargs tuples : list (list Z)) :
  Forall (Forall P) qargs ->
  gate_broadcast_arguments qargs = Ok tuples ->
  Forall (Forall P) tuples.
Proof.
  intros Hq. unfold gate_broadcast_arguments.
  destruct (existsb is_nil qargs); [discriminate|].
  destruct qargs as [|q0 [|q1 [|q2 rest]]].
  - intros [= <-]. repeat constructor.
  - intros [= <-]. apply Forall_fmap, Forall_forall. intros a Ha.
    apply Forall_cons_1 in Hq as [Hq0 _]. rewrite Forall_forall in Hq0.
    constructor; [by apply Hq0 | constructor].
  - apply Forall_cons_1 in Hq as [Hq0 Hq]. apply Forall_cons_1 in Hq as [Hq1 _].
    assert (forall a b, a ∈ q0 -> b ∈ q1 -> Forall P [a; b]) as Hpair.
    { intros a b Ha Hb. rewrite Forall_forall in Hq0, Hq1.
      constructor; [by apply Hq0|]. constructor; [by apply Hq1 | constructor]. }
    destruct (length q0 =? length q1)%nat.
    + intros [= <-]. apply Forall_forall. intros t Ht.
      apply elem_of_lookup_zip_with in Ht as (i & a & b & -> & Ha & Hb).
      apply Hpair; by eapply list_elem_of_lookup_2.
    + destruct q0 as [|a [|a' q0]]; [ | |].
      * destruct q1 as [|b [|b' q1]]; try discriminate.
        intros [= <-]. constructor.
      * intros [= <-]. apply Forall_fmap, Forall_forall. intros b Hb.
        apply Hpair; [apply list_elem_of_here | done].
      * destruct q1 as [|b [|b' q1]]; try discriminate.
        intros [= <-].
        constructor; [apply Hpair; in_list|].
        constructor; [apply Hpair; in_list|].
        apply Forall_fmap, Forall_forall. intros x Hx.
        apply Hpair; [by do 2 apply list_elem_of_further | apply list_elem_of_here].
  - destruct (forallb _ _); [|discriminate]. intros [= <-].
    by apply (Forall_broadcast_columns P (length q0) (q0 :: q1 :: q2 :: rest)).
Qed.

Lemma measure_broadcast_arguments_range (P Q : Z -> Prop) (qarg carg : list Z)
    (pairs : list (Z * Z)) :
  Forall P qarg -> Forall Q carg ->
  measure_broadcast_arguments qarg carg = Ok pairs ->
  Forall (fun p => P p.1 /\ Q p.2) pairs.
Proof.
  intros Hq Hc. unfold measure_broadcast_arguments.
  rewrite Forall_forall in Hq, Hc.
  destruct (length carg =? length qarg)%nat.
  - intros [= <-]. apply Forall_forall. intros [q c] Hin.
    apply elem_of_zip_l in Hin as Hl. apply elem_of_zip_r in Hin as Hr. simpl.
    split; [by apply Hq | by apply Hc].
  - destruct qarg as [|q [|q' qarg]]; try discriminate.
    intros [= <-]. apply Forall_fmap, Forall_forall. intros c Hin. simpl.
    split; [apply Hq, list_elem_of_here | by apply Hc].
Qed.

Lemma for_each_tuples_grow (name : string) (params : list pyval) (tuples : list (list Z))
    (qc : QuantumCircuit) :
  Forall (Forall (fun q => 0 <= q < qc_num_qubits qc)) tuples ->
  circuit_grows qc
    (for_each tuples (fun qarg =>
       exec _check_dups qarg;
       _append {| instr_name := name; instr_params := params;
                  instr_qubits := qarg; instr_clbits := [] |}) qc).2.
Proof.
  intros Ht. revert qc Ht. induction tuples as [|t tuples IH]; intros qc Ht; simpl.
  - apply circuit_grows_refl.
  - apply Forall_cons_1 in Ht as [Ht Hts].
    unfold bind at 1. unfold bind at 1, _check_dups.
    destruct (has_dups t) eqn:Hd; simpl; [apply circuit_grows_refl|].
    eapply circuit_grows_trans.
    + apply (circuit_grows_append qc
               {| instr_name := name; instr_params := params;
                  instr_qubits := t; instr_clbits := [] |}).
      split; [exact Ht|]. split; [by apply has_dups_NoDup | constructor].
    + apply IH. exact Hts.
Qed.

Lemma append_gate_grows (name : string) (params qargs : list pyval) (qc : QuantumCircuit) :
  circuit_grows qc (append_gate name params qargs qc).2.
Proof.
  unfold append_gate. unfold bind at 1, lift at 1.
  destruct (omapM validate_parameter params) as [ps|e]; [|apply circuit_grows_refl].
  unfold bind at 1. rewrite mapM_conversion.
  destruct (omapM _ qargs) as [expanded|e] eqn:He; [|apply circuit_grows_refl].
  unfold bind at 1, lift at 1.
  destruct (gate_broadcast_arguments expanded) as [tuples|e] eqn:Hb;
    [|apply circuit_grows_refl].
  apply for_each_tuples_grow.
  apply (gate_broadcast_arguments_range _ expanded); [|done].
  apply (omapM_Forall _ _ _ _ (bit_argument_conversion_range (qc_num_qubits qc)) He).
Qed.

Lemma qc_measure_grows (qubit cbit : pyval) (qc : QuantumCircuit) :
  circuit_grows qc (qc_measure qubit cbit qc).2.
Proof.
  unfold qc_measure. unfold bind at 1, qbit_argument_conversion at 1.
  destruct (bit_argument_conversion (qc_num_qubits qc) qubit) as [qarg|e] eqn:Hq;
    [|apply circuit_grows_refl].
  unfold bind at 1, cbit_argument_conversion at 1.
  destruct (bit_argument_conversion (qc_num_clbits qc) cbit) as [carg|e] eqn:Hc;
    [|apply circuit_grows_refl].
  unfold bind at 1, lift at 1.
  destruct (measure_broadcast_arguments qarg carg) as [pairs|e] eqn:Hb;
    [|apply circuit_grows_refl].
  pose proof (measure_broadcast_arguments_range _ _ _ _ _
                (bit_argument_conversion_range _ _ _ Hq)
                (bit_argument_conversion_range _ _ _ Hc) Hb) as Hp.
  clear Hq Hc Hb. revert qc Hp. induction pairs as [|p pairs IH]; intros qc Hp; simpl.
  - apply circuit_grows_refl.
  - apply Forall_cons_1 in Hp as [[Hq Hc] Hp]. unfold bind at 1, _append at 1.
    eapply circuit_grows_trans.
    + apply (circuit_grows_append qc
               {| instr_name := "measure"; instr_params := [];
                  instr_qubits := [p.1]; instr_clbits := [p.2] |}).
      split; [by constructor|]. split; [apply NoDup_singleton | by constructor].
    + by apply IH.
Qed.

(** The [try] body only ever appends fitting instructions. *)
Lemma apply_gate_grows (m : string) (gate_info qubit target_qubit params : pyval)
    (qc : QuantumCircuit) :
  circuit_grows qc (apply_gate m gate_info qubit target_qubit params qc).2.
Proof.
  unfold apply_gate, qc_h, qc_x, qc_y, qc_z, qc_s, qc_t, qc_sdg, qc_tdg, qc_rx, qc_ry,
    qc_rz, qc_cx, qc_cy, qc_cz, qc_swap, qc_ccx, qc_cswap.
  repeat match goal with
  | |- circuit_grows _ ((if ?b then _ else _) _).2 => destruct b
  | |- circuit_grows _ (bind (lift ?o) _ _).2 =>
      unfold bind at 1, lift at 1; destruct o
  | |- circuit_grows _ (bind (ret ?a) _ _).2 => unfold bind at 1, ret at 1
  | |- circuit_grows _ (bind (if ?b then _ else _) _ _).2 => destruct b
  | |- circuit_grows _ (append_gate _ _ _ _).2 => apply append_gate_grows
  | |- circuit_grows _ (qc_measure _ _ _).2 => apply qc_measure_grows
  | |- circuit_grows ?qc (ret _ ?qc).2 => apply circuit_grows_refl
  | |- circuit_grows ?qc (Raise _, ?qc).2 => apply circuit_grows_refl
  end.
Qed.

(** One descriptor: the circuit grows, the log gains at most one record. *)
Lemma build_gate_grows (v : pyval) (st : QuantumCircuit * list log_record) :
  let st' := (build_gate v st).2 in
  circuit_grows st.1 st'.1
  /\ exists written, st'.2 = st.2 ++ written /\ (length written <= 1)%nat.
Proof.
  unfold build_gate, bind, lift.
  destruct (py_get v "gate" _) as [gate_v|e];
    [|split; [apply circuit_grows_refl | exists []; split; [by rewrite app_nil_r | simpl; lia]]].
  destruct (py_lower gate_v) as [gate|e];
    [|split; [apply circuit_grows_refl | exists []; split; [by rewrite app_nil_r | simpl; lia]]].
  destruct (py_get v "qubit" _) as [qubit|e];
    [|split; [apply circuit_grows_refl | exists []; split; [by rewrite app_nil_r | simpl; lia]]].
  destruct (py_get v "targetQubit" _) as [target|e];
    [|split; [apply circuit_grows_refl | exists []; split; [by rewrite app_nil_r | simpl; lia]]].
  destruct (py_get v "params" _) as [params|e];
    [|split; [apply circuit_grows_refl | exists []; split; [by rewrite app_nil_r | simpl; lia]]].
  destruct (GATE_MAP !! gate) as [m|];
    [|split; [apply circuit_grows_refl | eexists; split; [reflexivity | simpl; lia]]].
  unfold try_except, on_circuit, logger.
  pose proof (apply_gate_grows m v qubit target params st.1) as Hg.
  destruct (apply_gate m v qubit target params st.1) as [[[]|e] qc']; simpl in *.
  - split; [done | exists []; split; [by rewrite app_nil_r | simpl; lia]].
  - split; [done | eexists; split; [reflexivity | simpl; lia]].
Qed.

Lemma for_each_build_gate_grows (items : list pyval) (st : QuantumCircuit * list log_record) :
  let st' := (for_each items build_gate st).2 in
  circuit_grows st.1 st'.1
  /\ exists written, st'.2 = st.2 ++ written /\ (length written <= length items)%nat.
Proof.
  revert st. induction items as [|v items IH]; intros st; simpl.
  - split; [apply circuit_grows_refl | exists []; split; [by rewrite app_nil_r | simpl; lia]].
  - unfold bind.
    destruct (build_gate_grows v st) as [Hg (l1 & Hl1 & Hn1)].
    destruct (build_gate v st) as [[[]|e] st1]; simpl in *.
    + destruct (IH st1) as [Hg2 (l2 & Hl2 & Hn2)]. split.
      * by eapply circuit_grows_trans.
      * exists (l1 ++ l2). rewrite Hl2, Hl1, app_assoc, length_app. split; [done|lia].
    + split; [done|]. exists l1. split; [done|lia].
Qed.

Lemma QuantumCircuit_new_empty (v : pyval) (qc : QuantumCircuit) :
  QuantumCircuit_new v = Ok qc -> qc_data qc = [].
Proof.
  unfold QuantumCircuit_new. destruct v as [| | | | |[|]|]; simpl;
    repeat match goal with
    | |- context [if ?b then _ else _] => destruct b
    | |- context [float_integral ?f] => destruct (float_integral f); simpl
    end; try discriminate; by intros [= <-].
Qed.

(** X4: every instruction of a circuit that [build_circuit] returns acts on
    qubits of the circuit, pairwise distinct, and on classical bits of the
    circuit, whatever the request held. *)
Theorem built_instructions_fit (num_qubits gates : pyval) (qc : QuantumCircuit)
    (lg : list log_record) :
  build_circuit num_qubits gates = (Ok qc, lg) ->
  Forall (instruction_fits (qc_num_qubits qc) (qc_num_clbits qc)) (qc_data qc).
Proof.
  unfold build_circuit.
  destruct (QuantumCircuit_new num_qubits) as [qc0|e] eqn:Hnew; [|discriminate].
  destruct (py_iter gates) as [items|e]; [|discriminate].
  destruct (for_each_build_gate_grows items (qc0, [])) as [(added & Hqc & Hfit) _].
  destruct (for_each items build_gate (qc0, [])) as [[[]|e] [qc' lg']]; [|discriminate].
  intros [= <- <-]. simpl in Hqc. rewrite Hqc. simpl.
  by rewrite (QuantumCircuit_new_empty _ _ Hnew).
Qed.

Lemma built_instructions_fit_witness :
  Forall (instruction_fits 2 2)
    [{| instr_name := "cx"; instr_params := []; instr_qubits := [1; 0];
        instr_clbits := [] |}].
Proof.
  apply (built_instructions_fit (PyInt 2)
           (PyList [json_object [("gate", PyStr "cx"); ("qubit", PyInt (-1));
                                 ("targetQubit", PyInt 0)]])
           {| qc_num_qubits := 2; qc_cregs := [2];
              qc_data := [{| instr_name := "cx"; instr_params := [];
                             instr_qubits := [1; 0]; instr_clbits := [] |}] |} []).
  vm_compute; reflexivity.
Defined.

(** X5: each descriptor writes at most one log record, so the log of a
    build is never longer than the descriptor list. *)
Theorem build_log_is_bounded (num_qubits : pyval) (items : list pyval) :
  (length (build_circuit num_qubits (PyList items)).2 <= length items)%nat.
Proof.
  rewrite build_circuit_list.
  destruct (QuantumCircuit_new num_qubits) as [qc0|e]; [|simpl; lia].
  destruct (for_each_build_gate_grows items (qc0, [])) as [_ (written & Hw & Hn)].
  destruct (for_each items build_gate (qc0, [])) as [[[]|e] [qc' lg']];
    simpl in *; by subst lg'.
Qed.

(** X6: operations keep the order of their descriptors: the circuit and the
    log built from a longer descriptor list extend those built from any
    prefix of it. *)
Theorem build_extends_every_prefix (num_qubits : pyval) (pre post : list pyval)
    (qc : QuantumCircuit) (lg : list log_record) :
  build_circuit num_qubits (PyList (pre ++ post)) = (Ok qc, lg) ->
  exists qc1 lg1,
    build_circuit num_qubits (PyList pre) = (Ok qc1, lg1)
    /\ qc_data qc1 `prefix_of` qc_data qc
    /\ lg1 `prefix_of` lg.
Proof.
  rewrite !build_circuit_list.
  destruct (QuantumCircuit_new num_qubits) as [qc0|e]; [|discriminate].
  rewrite for_each_app.
  destruct (for_each pre build_gate (qc0, [])) as [[[]|e] [qc1 lg1]]; [|discriminate].
  destruct (for_each_build_gate_grows post (qc1, lg1))
    as [(added & Hqc & _) (written & Hw & _)].
  destruct (for_each post build_gate (qc1, lg1)) as [[[]|e] [qc2 lg2]]; [|discriminate].
  intros [= <- <-]. exists qc1, lg1. split; [reflexivity|]. simpl in *.
  split; [rewrite Hqc; by eexists | rewrite Hw; by eexists].
Qed.

Lemma build_extends_every_prefix_witness :
  let h0 := json_object [("gate", PyStr "h"); ("qubit", PyInt 0)] in
  let bad := json_object [("gate", PyStr "h"); ("qubit", PyInt 9)] in
  exists qc qc1 lg1,
    build_circuit (PyInt 1) (PyList [h0; bad]) = (Ok qc1, lg1)
    /\ qc_data qc1 `prefix_of` qc_data qc
    /\ lg1 `prefix_of` [Error_applying_gate "h" CircuitError].
Proof.
  intros h0 bad. eexists.
  apply (build_extends_every_prefix (PyInt 1) [h0; bad] [h0]).
  vm_compute; reflexivity.
Defined.

(** X7: a measure descriptor for qubit [q] of a circuit of [n] qubits
    records the outcome in classical bit [q]. *)
Theorem measure_writes_its_own_bit (n q : Z) (g : string) :
  lower g = "measure" ->
  0 <= q < n ->
  build_circuit (PyInt n)
      (PyList [PyDict (<["gate" := PyStr g]> (<["qubit" := PyInt q]> ∅))])
    = (Ok {| qc_num_qubits := n; qc_cregs := [n];
             qc_data := [{| instr_name := "measure"; instr_params := [];
                            instr_qubits := [q]; instr_clbits := [q] |}] |}, []).
Proof.
  intros Hg Hq. rewrite build_circuit_list.
  unfold QuantumCircuit_new, register_size, obind.
  rewrite (proj2 (Z.ltb_ge n 0)) by lia. rewrite (proj2 (Z.eqb_neq n 0)) by lia.
  simpl for_each. unfold bind at 1. rewrite build_gate_with_gate_entry, Hg.
  change (GATE_MAP !! "measure") with (Some "measure").
  rewrite lookup_insert_eq. unfold try_except, on_circuit. simpl default.
  rewrite apply_gate_measure.
  unfold qc_measure, bind, qbit_argument_conversion, cbit_argument_conversion,
    bit_argument_conversion, obind, lift, qc_num_clbits. simpl qc_num_qubits.
  simpl foldr. rewrite Z.add_0_r, !bit_index_in_range by done. reflexivity.
Qed.

Lemma measure_writes_its_own_bit_witness :
  build_circuit (PyInt 3)
      (PyList [PyDict (<["gate" := PyStr "Measure"]> (<["qubit" := PyInt 2]> ∅))])
    = (Ok {| qc_num_qubits := 3; qc_cregs := [3];
             qc_data := [{| instr_name := "measure"; instr_params := [];
                            instr_qubits := [2]; instr_clbits := [2] |}] |}, []).
Proof. apply (measure_writes_its_own_bit 3 2 "Measure"); [reflexivity | lia]. Defined.

(* ================================================================= *)
(** * Further properties of the simulation and the handlers *)

(** ** Basis-state labels *)

Lemma binary_value_app (s1 s2 : list ascii) (base : N) :
  foldl (fun a c => (2 * a + (if Ascii.eqb c "1" then 1 else 0))%N) base (s1 ++ s2)
    = foldl (fun a c => (2 * a + (if Ascii.eqb c "1" then 1 else 0))%N)
            (foldl (fun a c => (2 * a + (if Ascii.eqb c "1" then 1 else 0))%N) base s1) s2.
Proof. apply foldl_app. Qed.

Lemma pos_binary_digits (p : positive) (acc : string) (base : N) :
  foldl (fun a c => (2 * a + (if Ascii.eqb c "1" then 1 else 0))%N) base
        (list_ascii_of_string (pos_binary p acc))
    = foldl (fun a c => (2 * a + (if Ascii.eqb c "1" then 1 else 0))%N)
            (base * 2 ^ N.of_nat (Pos.size_nat p) + N.pos p)%N
            (list_ascii_of_string acc).
Proof.
  revert acc base. induction p as [p IH|p IH|]; intros acc base; simpl pos_binary.
  - rewrite IH. simpl. f_equal.
    rewrite Nat2N.inj_succ, N.pow_succ_r'. lia.
  - rewrite IH. simpl. f_equal.
    rewrite Nat2N.inj_succ, N.pow_succ_r'. lia.
  - simpl. f_equal. lia.
Qed.

Lemma pos_binary_length (p : positive) (acc : string) :
  String.length (pos_binary p acc) = (Pos.size_nat p + String.length acc)%nat.
Proof.
  revert acc. induction p as [p IH|p IH|]; intros acc; simpl;
    rewrite ?IH; simpl; lia.
Qed.

Lemma leading_zeros_value (k : nat) (s : list ascii) :
  foldl (fun a c => (2 * a + (if Ascii.eqb c "1" then 1 else 0))%N) 0%N
        (replicate k "0"%char ++ s)
    = foldl (fun a c => (2 * a + (if Ascii.eqb c "1" then 1 else 0))%N) 0%N s.
Proof. induction k as [|k IH]; simpl; [reflexivity | exact IH]. Qed.

Lemma string_length_of_list (l : list ascii) :
  String.length (string_of_list_ascii l) = length l.
Proof. induction l as [|c l IH]; simpl; [reflexivity | by rewrite IH]. Qed.

Lemma string_length_as_list (s : string) :
  length (list_ascii_of_string s) = String.length s.
Proof. induction s as [|c s IH]; simpl; [reflexivity | by rewrite IH]. Qed.

Lemma size_nat_bound (p : positive) (w : Z) :
  0 <= w -> Z.pos p < 2 ^ w -> Z.of_nat (Pos.size_nat p) <= w.
Proof.
  revert w. induction p as [p IH|p IH|]; intros w Hw Hp.
  - assert (w <> 0) by (intros ->; simpl in Hp; lia).
    replace w with (Z.succ (w - 1)) in Hp by lia. rewrite Z.pow_succ_r in Hp by lia.
    specialize (IH (w - 1)). simpl Pos.size_nat. lia.
  - assert (w <> 0) by (intros ->; simpl in Hp; lia).
    replace w with (Z.succ (w - 1)) in Hp by lia. rewrite Z.pow_succ_r in Hp by lia.
    specialize (IH (w - 1)). simpl Pos.size_nat. lia.
  - assert (w <> 0) by (intros ->; simpl in Hp; lia). simpl. lia.
Qed.

Lemma format_binary_value (i : nat) (width : Z) :
  binary_value (format_binary i width) = N.of_nat i.
Proof.
  unfold format_binary, binary_value. rewrite list_ascii_of_string_of_list_ascii.
  rewrite leading_zeros_value.
  destruct (N.of_nat i) as [|p]; [reflexivity|].
  rewrite (pos_binary_digits p EmptyString 0). simpl. lia.
Qed.

(** X8: the label of basis state [i] reads back as [i], so different
    states never share a label; and for [i < 2^width] the label has exactly
    [width] digits. *)
Theorem format_binary_round_trip (i : nat) (width : Z) :
  binary_value (format_binary i width) = N.of_nat i
  /\ (0 < width -> Z.of_nat i < 2 ^ width ->
      String.length (format_binary i width) = Z.to_nat width).
Proof.
  split; [apply format_binary_value|].
  intros Hw Hi. unfold format_binary.
  rewrite string_length_of_list, length_app, length_replicate, string_length_as_list.
  assert (String.length (match N.of_nat i with
                         | 0%N => "0"
                         | N.pos p => pos_binary p EmptyString
                         end) <= Z.to_nat width)%nat; [|lia].
  destruct (N.of_nat i) as [|p] eqn:Hp; [simpl; lia|].
  rewrite pos_binary_length. simpl. rewrite Nat.add_0_r.
  assert (Z.pos p < 2 ^ width) as Hlt by lia.
  pose proof (size_nat_bound p width ltac:(lia) Hlt). lia.
Qed.

Lemma format_binary_round_trip_witness :
  String.length (format_binary 5 4) = Z.to_nat 4.
Proof. apply (proj2 (format_binary_round_trip 5 4)); [lia | reflexivity]. Defined.

(** ** The probability table *)

Section Probabilities.

Variable E : Environment.

Lemma elem_of_calculate_probabilities (n : Z) (sv : list (float * float))
    (key : string) (p : float) :
  (key, p) ∈ calculate_probabilities E n sv <->
  exists i amp,
    sv !! i = Some amp /\ key = format_binary i n /\ p = abs_squared E amp
    /\ (epsilon <? p)%float = true.
Proof.
  unfold calculate_probabilities. rewrite list_elem_of_omap. split.
  - intros ([i amp] & Hin & Hsome).
    apply list_elem_of_lookup in Hin as [j Hj].
    rewrite list_lookup_imap in Hj.
    destruct (sv !! j) as [amp'|] eqn:Hsv; [|discriminate]. injection Hj as <- <-.
    destruct (epsilon <? abs_squared E amp')%float eqn:Heps; [|discriminate].
    injection Hsome as <- <-. by exists j, amp'.
  - intros (i & amp & Hsv & -> & -> & Heps). exists (i, amp). split.
    + apply list_elem_of_lookup. exists i. by rewrite list_lookup_imap, Hsv.
    + by rewrite Heps.
Qed.

(** X9: the probability table holds exactly the basis states whose
    probability exceeds [1e-10], each under the zero-padded binary label of
    its index with the squared magnitude of its amplitude; no label occurs
    twice, so building it as a dictionary overwrites nothing. *)
Theorem probability_table (n : Z) (sv : list (float * float)) :
  (forall key p,
     (key, p) ∈ calculate_probabilities E n sv <->
     exists i amp,
       sv !! i = Some amp /\ key = format_binary i n /\ p = abs_squared E amp
       /\ (epsilon <? p)%float = true)
  /\ NoDup (calculate_probabilities E n sv).*1.
Proof.
  split; [apply elem_of_calculate_probabilities|].
  unfold calculate_probabilities.
  assert (forall (l : list (nat * (float * float))),
            NoDup l.*1 ->
            NoDup (omap (fun '(i, amp) =>
                           let prob := abs_squared E amp in
                           if (epsilon <? prob)%float
                           then Some (format_binary i n, prob) else None) l).*1) as H.
  { induction l as [|[i amp] l IH]; simpl; [constructor|].
    intros [Hi Hl]%NoDup_cons. specialize (IH Hl).
    destruct (epsilon <? abs_squared E amp)%float; simpl; [|exact IH].
    constructor; [|exact IH]. intros Hin.
    apply list_elem_of_fmap in Hin as ([key p] & Hkey & Hin). simpl in Hkey.
    apply list_elem_of_omap in Hin as ([j amp'] & Hj & Hsome).
    destruct (epsilon <? abs_squared E amp')%float; [|discriminate].
    injection Hsome as <- <-.
    assert (i = j) as ->.
    { apply Nat2N.inj.
      rewrite <- (format_binary_value i n), <- (format_binary_value j n).
      by rewrite Hkey. }
    apply Hi. apply list_elem_of_fmap. by exists (j, amp'). }
  apply H. clear H.
  assert (forall k, (imap (fun i x => (k + i, x)%nat) sv).*1 = seq k (length sv)) as Hseq.
  { induction sv as [|a l IH]; intros k; simpl; [reflexivity|].
    rewrite Nat.add_0_r. f_equal.
    rewrite <- (IH (S k)). f_equal. apply imap_ext. intros. simpl. f_equal. lia. }
  specialize (Hseq 0%nat). simpl in Hseq.
  replace (imap pair sv) with (imap (fun i x => (i, x)) sv) by reflexivity.
  rewrite Hseq. apply NoDup_seq.
Qed.

End Probabilities.

(** ** What a simulation does to the process state *)

Section SimulationEffects.

Variable E : Environment.

(** X10: whatever the simulator answers, [run_simulation] writes nothing to
    the log or the job list.  On a circuit without qubits it raises the
    [ValueError] of the save instruction and asks nothing of the simulator;
    otherwise the simulator calls it makes are the first [k] (1 to 4) of:
    transpile the state-vector circuit, run it with one shot, transpile the
    measurement circuit, run it with [shots]. *)
Theorem run_simulation_effects (qc : QuantumCircuit) (shots : pyval) (w : world) :
  let w' := (run_simulation E qc shots w).2 in
  log w' = log w /\ recent_jobs w' = recent_jobs w
  /\ (qc_num_qubits qc <= 0 -> run_simulation E qc shots w = (Raise ValueError, w))
  /\ (0 < qc_num_qubits qc ->
      exists (k : nat) (t t' : QuantumCircuit),
        (1 <= k <= 4)%nat
        /\ calls w' = calls w ++
             take k [Call_transpile (state_circuit_of E qc); Call_run t (PyInt 1);
                     Call_transpile (measurement_circuit_of qc); Call_run t' shots]).
Proof.
  intros w'. subst w'.
  split; [apply (run_simulation_keeps_jobs E)|]. split; [apply (run_simulation_keeps_jobs E)|].
  split; [apply run_simulation_no_qubits|]. intros Hn.
  unfold run_simulation. rewrite (state_circuit_sent E qc Hn), bind_lift_Ok.
  unfold call_transpile, call_run, bind, lift, record_call, ret. simpl.
  destruct (transpile E (state_circuit_of E qc)) as [t|e]; simpl;
    [|exists 1%nat, qc, qc; split; [lia | reflexivity]].
  destruct (simulator_run E t (PyInt 1)) as [r|e]; simpl;
    [|exists 2%nat, t, qc; split; [lia | by rewrite <- !app_assoc]].
  destruct (get_statevector r) as [sv|e]; simpl;
    [|exists 2%nat, t, qc; split; [lia | by rewrite <- !app_assoc]].
  destruct (transpile E (measurement_circuit_of qc)) as [t'|e]; simpl;
    [|exists 3%nat, t, qc; split; [lia | by rewrite <- !app_assoc]].
  destruct (simulator_run E t' shots) as [r'|e]; simpl;
    [destruct (get_counts r') as [cs|e]; simpl;
       [destruct (omapM _ cs) as [mp|e]; simpl|]|];
    exists 4%nat, t, t'; (split; [lia | by rewrite <- !app_assoc]).
Qed.

(** X11: when the exact phase fails (the circuit has no qubit for the save
    instruction, the transpiler or the simulator raises, or the result
    holds no state vector) [run_simulation] raises that exception and the
    measurement circuit is never submitted: no sampling is requested. *)
Theorem exact_phase_failure_stops_the_run (qc : QuantumCircuit) (shots : pyval)
    (w : world) (e : exn) :
  let stopped e cs :=
    run_simulation E qc shots w
      = (Raise e, {| log := log w; recent_jobs := recent_jobs w;
                     calls := calls w ++ cs |}) in
  (qc_num_qubits qc <= 0 -> stopped ValueError []) /\
  (0 < qc_num_qubits qc ->
   transpile E (state_circuit_of E qc) = Raise e ->
     stopped e [Call_transpile (state_circuit_of E qc)]) /\
  (forall t,
     0 < qc_num_qubits qc ->
     transpile E (state_circuit_of E qc) = Ok t ->
     simulator_run E t (PyInt 1) = Raise e ->
     stopped e [Call_transpile (state_circuit_of E qc); Call_run t (PyInt 1)]) /\
  (forall t r,
     0 < qc_num_qubits qc ->
     transpile E (state_circuit_of E qc) = Ok t ->
     simulator_run E t (PyInt 1) = Ok r ->
     get_statevector r = Raise e ->
     stopped e [Call_transpile (state_circuit_of E qc); Call_run t (PyInt 1)]).
Proof.
  intros stopped. subst stopped. cbv beta.
  split; [|split; [|split]].
  - intros Hn. rewrite (run_simulation_no_qubits E qc shots w Hn), app_nil_r.
    by destruct w.
  - intros Hn Ht. unfold run_simulation. rewrite (state_circuit_sent E qc Hn), bind_lift_Ok.
    unfold call_transpile, call_run, bind, lift, record_call, ret. simpl.
    by rewrite Ht.
  - intros t Hn Ht Hr. unfold run_simulation.
    rewrite (state_circuit_sent E qc Hn), bind_lift_Ok.
    unfold call_transpile, call_run, bind, lift, record_call, ret. simpl.
    rewrite Ht, Hr. simpl. by rewrite <- !app_assoc.
  - intros t r Hn Ht Hr Hsv. unfold run_simulation.
    rewrite (state_circuit_sent E qc Hn), bind_lift_Ok.
    unfold call_transpile, call_run, bind, lift, record_call, ret. simpl.
    rewrite Ht, Hr, Hsv. simpl. by rewrite <- !app_assoc.
Qed.

Lemma omapM_ok_Forall2 {A B} (f : A -> outcome B) (l : list A) (r : list B) :
  omapM f l = Ok r -> Forall2 (fun a b => f a = Ok b) l r.
Proof.
  revert r. induction l as [|a l IH]; simpl; intros r.
  - intros [= <-]. constructor.
  - destruct (f a) as [b|e] eqn:Hb; simpl; [|discriminate].
    destruct (omapM f l) as [bs|e]; simpl; [|discriminate].
    intros [= <-]. constructor; [done | by apply IH].
Qed.

(** X12: in the results of a successful simulation the real and imaginary
    parts have one entry per amplitude, [measurements] has the entries of
    [counts] in the same order with each count divided by [shots], and
    [shots] is echoed as received. *)
Theorem simulation_results_shape (qc : QuantumCircuit) (shots : pyval) (w w' : world)
    (res : results) :
  run_simulation E qc shots w = (Ok res, w') ->
  length (statevector_real res) = length (statevector_imag res)
  /\ Forall2 (fun m c => m.1 = c.1 /\ py_truediv c.2 shots = Ok m.2)
             (measurements res) (counts res)
  /\ results_shots res = shots.
Proof.
  unfold run_simulation. unfold bind at 1, lift at 1.
  destruct (save_statevector _) as [sc|e]; [|discriminate].
  unfold call_transpile, call_run, bind, lift, record_call, ret. simpl.
  destruct (transpile E sc) as [t|e]; [|discriminate].
  destruct (simulator_run E t (PyInt 1)) as [r|e]; [|discriminate].
  destruct (get_statevector r) as [sv|e]; [|discriminate].
  destruct (transpile E (measurement_circuit_of qc)) as [t'|e]; [|discriminate].
  destruct (simulator_run E t' shots) as [r'|e]; [|discriminate].
  destruct (get_counts r') as [cs|e]; [|discriminate].
  destruct (omapM _ cs) as [mp|e] eqn:Hmp; [|discriminate].
  intros [= <- <-]. simpl. split; [by rewrite !length_fmap|]. split; [|reflexivity].
  apply omapM_ok_Forall2 in Hmp. apply Forall2_flip.
  eapply Forall2_impl; [exact Hmp|]. intros [key c] [key' m]. simpl.
  destruct (py_truediv c shots); simpl; [|discriminate]. by intros [= <- <-].
Qed.

End SimulationEffects.

Lemma exact_phase_failure_stops_the_run_witness :
  let qc := {| qc_num_qubits := 1; qc_cregs := [1];
               qc_data := [{| instr_name := "h"; instr_params := [];
                              instr_qubits := [0]; instr_clbits := [] |}] |} in
  let empty := {| qc_num_qubits := 0; qc_cregs := []; qc_data := [] |} in
  run_simulation idle_env qc (PyInt 16) empty_world
    = (Raise (QiskitError "declined"),
       {| log := []; recent_jobs := [];
          calls := [] ++ [Call_transpile (state_circuit_of idle_env qc);
                          Call_run (state_circuit_of idle_env qc) (PyInt 1)] |})
  /\ run_simulation idle_env empty (PyInt 16) empty_world
       = (Raise ValueError, {| log := []; recent_jobs := []; calls := [] ++ [] |}).
Proof.
  intros qc empty. split.
  - apply (proj1 (proj2 (proj2 (exact_phase_failure_stops_the_run idle_env qc (PyInt 16)
                                  empty_world (QiskitError "declined"))))
             (state_circuit_of idle_env qc)); [simpl; lia | reflexivity..].
  - apply (proj1 (exact_phase_failure_stops_the_run idle_env empty (PyInt 16)
                    empty_world ValueError)). simpl. lia.
Defined.

Lemma run_simulation_effects_witness :
  let empty := {| qc_num_qubits := 0; qc_cregs := []; qc_data := [] |} in
  let qc := {| qc_num_qubits := 1; qc_cregs := [1]; qc_data := [] |} in
  run_simulation idle_env empty (PyInt 8) empty_world = (Raise ValueError, empty_world)
  /\ exists (k : nat) (t t' : QuantumCircuit),
       (1 <= k <= 4)%nat
       /\ calls (run_simulation idle_env qc (PyInt 8) empty_world).2
            = calls empty_world ++
                take k [Call_transpile (state_circuit_of idle_env qc); Call_run t (PyInt 1);
                        Call_transpile (measurement_circuit_of qc); Call_run t' (PyInt 8)].
Proof.
  intros empty qc. split.
  - apply (proj1 (proj2 (proj2 (run_simulation_effects idle_env empty (PyInt 8)
                                  empty_world)))). simpl. lia.
  - apply (proj2 (proj2 (proj2 (run_simulation_effects idle_env qc (PyInt 8)
                                  empty_world)))). simpl. lia.
Defined.

Lemma simulation_results_shape_witness :
  let qc := {| qc_num_qubits := 1; qc_cregs := [1]; qc_data := [] |} in
  exists res w',
    run_simulation idle_env qc (PyInt 16) empty_world = (Ok res, w')
    /\ results_shots res = PyInt 16
    /\ length (statevector_real res) = length (statevector_imag res).
Proof.
  intros qc.
  destruct (run_simulation idle_env qc (PyInt 16) empty_world) as [[res|e] w'] eqn:Hrun;
    [|vm_compute in Hrun; discriminate Hrun].
  exists res, w'.
  destruct (simulation_results_shape idle_env qc (PyInt 16) empty_world w' res Hrun)
    as (Hlen & _ & Hshots).
  by repeat split.
Defined.

(** ** The handlers *)

Section Handlers.

Variable E : Environment.

(** The three ways a request fails before the simulation. *)
Lemma run_circuit_not_an_object (data : pyval) (w : world) :
  (forall d, data <> PyDict d) ->
  run_circuit E data w
    = (Ok (Failure AttributeError 500),
       {| log := log w ++ [Error_running_circuit AttributeError];
          recent_jobs := recent_jobs w; calls := calls w |}).
Proof. intros Hd. destruct data; try reflexivity. by destruct (Hd d). Qed.

Lemma run_circuit_gates_without_length (d : gmap string pyval) (w : world) (e : exn) :
  py_len (default (PyList []) (d !! "gates")) = Raise e ->
  run_circuit E (PyDict d) w
    = (Ok (Failure e 500),
       {| log := log w ++ [Error_running_circuit e];
          recent_jobs := recent_jobs w; calls := calls w |}).
Proof.
  intros Hlen. unfold run_circuit. rewrite !py_get_dict.
  unfold try_except. rewrite !bind_lift_Ok. rewrite Hlen. reflexivity.
Qed.

Lemma run_circuit_build_raises (d : gmap string pyval) (w : world) (n_gates : nat)
    (lg : list log_record) (e : exn) :
  py_len (default (PyList []) (d !! "gates")) = Ok n_gates ->
  build_circuit (default (PyInt 2) (d !! "numQubits"))
                (default (PyList []) (d !! "gates")) = (Raise e, lg) ->
  run_circuit E (PyDict d) w
    = (Ok (Failure e 500),
       {| log := log w ++ Info_running (default (PyInt 2) (d !! "numQubits")) n_gates
                            (default (PyInt 1024) (d !! "shots"))
                          :: lg ++ [Error_running_circuit e];
          recent_jobs := recent_jobs w; calls := calls w |}).
Proof.
  intros Hlen Hbuild. unfold run_circuit. rewrite !py_get_dict.
  unfold try_except. rewrite !bind_lift_Ok. rewrite Hlen, bind_lift_Ok.
  unfold bind at 1, write_log at 1. unfold bind at 1, call_build_circuit.
  rewrite Hbuild. unfold bind at 1, write_log at 1, lift.
  unfold bind, write_log, ret. cbn [log recent_jobs calls].
  by rewrite <- !app_assoc.
Qed.

(** X13: a request that fails before the simulation (a body that is not a
    JSON object, a [gates] value without a length, a build that raises) is
    answered with status 500 and the exception; the exception is logged, no
    simulator call is made and no job is stored. *)
Theorem run_circuit_early_failure (data : pyval) (w : world) :
  let failed lg e :=
    run_circuit E data w
      = (Ok (Failure e 500),
         {| log := log w ++ lg ++ [Error_running_circuit e];
            recent_jobs := recent_jobs w; calls := calls w |}) in
  ((forall d, data <> PyDict d) -> failed [] AttributeError)
  /\ (forall d e,
        data = PyDict d ->
        py_len (default (PyList []) (d !! "gates")) = Raise e -> failed [] e)
  /\ (forall d n_gates lg e,
        data = PyDict d ->
        py_len (default (PyList []) (d !! "gates")) = Ok n_gates ->
        build_circuit (default (PyInt 2) (d !! "numQubits"))
                      (default (PyList []) (d !! "gates")) = (Raise e, lg) ->
        failed (Info_running (default (PyInt 2) (d !! "numQubits")) n_gates
                  (default (PyInt 1024) (d !! "shots")) :: lg) e).
Proof.
  intros failed. subst failed. split; [|split].
  - apply run_circuit_not_an_object.
  - intros d e -> Hlen. by apply run_circuit_gates_without_length.
  - intros d n_gates lg e -> Hlen Hbuild. by apply run_circuit_build_raises.
Qed.

Lemma jobs_with_length (j : job_record) (jobs : list job_record) :
  (length jobs <= MAX_JOBS -> length (jobs_with j jobs) <= MAX_JOBS)%nat.
Proof.
  intros Hb. unfold jobs_with.
  destruct (Nat.ltb_spec MAX_JOBS (length (j :: jobs))) as [Hgt|Hle]; [|exact Hle].
  rewrite removelast_firstn_len, length_take. simpl in *. lia.
Qed.

(** X14: a job is stored exactly when the simulation succeeded: it is put
    at the head of the list with the request's [numQubits], [shots] and
    number of descriptors, also when the QASM export then raises and the
    answer is a failure; when the simulation raises the list is unchanged. *)
Theorem job_is_stored_once_simulated (d : gmap string pyval) (w : world) (n_gates : nat)
    (qc : QuantumCircuit) (lg : list log_record) :
  let num_qubits := default (PyInt 2) (d !! "numQubits") in
  let gates := default (PyList []) (d !! "gates") in
  let shots := default (PyInt 1024) (d !! "shots") in
  let w1 := {| log := (log w ++ [Info_running num_qubits n_gates shots]) ++ lg;
               recent_jobs := recent_jobs w; calls := calls w |} in
  let after := run_circuit E (PyDict d) w in
  py_len gates = Ok n_gates ->
  build_circuit num_qubits gates = (Ok qc, lg) ->
  (forall res w2,
     run_simulation E qc shots w1 = (Ok res, w2) ->
     recent_jobs after.2 = jobs_with (job_of E num_qubits n_gates shots) (recent_jobs w)
     /\ (forall e, qasm E qc = Raise e -> after.1 = Ok (Failure e 500)))
  /\ (forall e w2,
        run_simulation E qc shots w1 = (Raise e, w2) ->
        recent_jobs after.2 = recent_jobs w /\ after.1 = Ok (Failure e 500)).
Proof.
  intros num_qubits gates shots w1 after Hlen Hbuild. subst after.
  rewrite (run_circuit_unfolded E d w n_gates qc lg Hlen Hbuild).
  fold num_qubits gates shots w1.
  pose proof (proj1 (run_simulation_keeps_jobs E qc shots w1)) as Hjobs.
  split.
  - intros res w2 Hsim. rewrite Hsim in *. simpl in Hjobs. split.
    + destruct (qasm E qc); [destruct (depth E qc)|]; simpl; by rewrite Hjobs.
    + by intros e ->.
  - intros e w2 Hsim. rewrite Hsim in *. simpl in *. by rewrite Hjobs.
Qed.

(** What [run_circuit] can leave in the job list. *)
Lemma run_circuit_jobs (data : pyval) (w : world) :
  recent_jobs (run_circuit E data w).2 = recent_jobs w
  \/ exists j, recent_jobs (run_circuit E data w).2 = jobs_with j (recent_jobs w).
Proof.
  assert ((forall d, data <> PyDict d) ->
          recent_jobs (run_circuit E data w).2 = recent_jobs w) as Hnd
    by (intros H; by rewrite (run_circuit_not_an_object data w H)).
  destruct data as [| | | | | |d]; try (left; apply Hnd; intros d'; discriminate).
  clear Hnd.
  destruct (py_len (default (PyList []) (d !! "gates"))) as [n_gates|e] eqn:Hlen.
  - destruct (build_circuit (default (PyInt 2) (d !! "numQubits"))
                (default (PyList []) (d !! "gates"))) as [[qc|e] lg] eqn:Hbuild.
    + rewrite (run_circuit_unfolded E d w n_gates qc lg Hlen Hbuild).
      match goal with |- context [run_simulation E qc ?s ?w1] =>
        pose proof (proj1 (run_simulation_keeps_jobs E qc s w1)) as Hj;
        destruct (run_simulation E qc s w1) as [[res|e] w2] end; simpl in Hj.
      * right. eexists.
        destruct (qasm E qc); [destruct (depth E qc)|]; simpl; by rewrite Hj.
      * left. simpl. exact Hj.
    + left. by rewrite (run_circuit_build_raises d w n_gates lg e Hlen Hbuild).
  - left. by rewrite (run_circuit_gates_without_length d w e Hlen).
Qed.

(** X15: the job list stays bounded: if it holds at most [MAX_JOBS] jobs
    before a request to [run_circuit], it holds at most [MAX_JOBS] after. *)
Theorem job_list_stays_bounded (data : pyval) (w : world) :
  (length (recent_jobs w) <= MAX_JOBS)%nat ->
  (length (recent_jobs (run_circuit E data w).2) <= MAX_JOBS)%nat.
Proof.
  intros Hb. destruct (run_circuit_jobs data w) as [-> | [j ->]]; [done|].
  by apply jobs_with_length.
Qed.

End Handlers.

Section Answers.

Variable E : Environment.

(** X16: [run_circuit] answers with a run result or with a failure of
    status 500; [parse_qasm] answers with a QASM result or with a failure
    of status 400, and never touches the job list. *)
Theorem answers_of_the_handlers (data : pyval) (w : world) :
  (exists resp w',
     run_circuit E data w = (Ok resp, w')
     /\ match resp with
        | Run_success _ _ _ _ _ => True
        | Failure _ status => status = 500
        | Qasm_success _ _ _ => False
        end)
  /\ (exists resp w',
        parse_qasm E data w = (Ok resp, w')
        /\ recent_jobs w' = recent_jobs w
        /\ match resp with
           | Qasm_success _ _ _ => True
           | Failure _ status => status = 400
           | Run_success _ _ _ _ _ => False
           end).
Proof.
  split.
  - assert ((forall d, data <> PyDict d) ->
            exists resp w', run_circuit E data w = (Ok resp, w')
              /\ match resp with
                 | Run_success _ _ _ _ _ => True
                 | Failure _ status => status = 500
                 | Qasm_success _ _ _ => False
                 end) as Hnd
      by (intros H; rewrite (run_circuit_not_an_object E data w H);
          by eexists _, _).
    destruct data as [| | | | | |d]; try (apply Hnd; intros d'; discriminate).
    clear Hnd.
    destruct (py_len (default (PyList []) (d !! "gates"))) as [n_gates|e] eqn:Hlen.
    + destruct (build_circuit (default (PyInt 2) (d !! "numQubits"))
                  (default (PyList []) (d !! "gates"))) as [[qc|e] lg] eqn:Hbuild.
      * rewrite (run_circuit_unfolded E d w n_gates qc lg Hlen Hbuild).
        match goal with |- context [run_simulation E qc ?s ?w1] =>
          destruct (run_simulation E qc s w1) as [[res|e] w2] end;
          [destruct (qasm E qc); [destruct (depth E qc)|]|]; by eexists _, _.
      * rewrite (run_circuit_build_raises E d w n_gates lg e Hlen Hbuild). by eexists _, _.
    + rewrite (run_circuit_gates_without_length E d w e Hlen).
      by eexists _, _.
  - unfold parse_qasm, try_except. unfold bind at 1, lift at 1.
    destruct (py_get data "qasm" _) as [qasm_code|e];
      [|by eexists _, _].
    unfold bind at 1, lift at 1.
    destruct (py_get data "shots" _) as [shots|e]; [|by eexists _, _].
    unfold bind at 1, lift at 1.
    destruct (from_qasm_str E qasm_code) as [qc|e]; [|by eexists _, _].
    unfold bind at 1.
    pose proof (proj1 (run_simulation_keeps_jobs E qc shots w)) as Hjobs.
    destruct (run_simulation E qc shots w) as [[res|e] w2]; simpl in Hjobs;
      [|by eexists _, _].
    unfold bind, lift, ret.
    destruct (depth E qc); by eexists _, _.
Qed.

End Answers.

(** ** The job list *)

(** X17: [list_jobs] reports the number of stored jobs and returns a prefix
    of the list, newest first: the first [limit] jobs for a non-negative
    [limit] (10 when no limit is given), all but the last [-limit] for a
    negative one. *)
Theorem list_jobs_returns_a_prefix (limit_arg : option Z) (w : world) :
  let limit := default 10 limit_arg in
  let n := length (recent_jobs w) in
  (list_jobs limit_arg w).2 = n
  /\ (list_jobs limit_arg w).1 `prefix_of` recent_jobs w
  /\ Z.of_nat (length (list_jobs limit_arg w).1)
       = if (limit <? 0)%Z then Z.max 0 (Z.of_nat n + limit) else Z.min limit (Z.of_nat n).
Proof.
  intros limit n. unfold list_jobs. fold limit n. simpl. split; [reflexivity|].
  split; [apply prefix_take|]. rewrite length_take. fold n.
  destruct (Z.ltb_spec limit 0); lia.
Qed.

Section JobsAfterARun.

Variable E : Environment.

(** X18: after a request that [run_circuit] answers with success,
    [list_jobs] with a limit of one or more shows the job of that request
    first, under the id given in the answer. *)
Theorem list_jobs_shows_the_last_run (data : pyval) (w w' : world) (limit : Z)
    (id : string) (res : results) (text : string) (dp : Z) (count : nat) :
  run_circuit E data w = (Ok (Run_success id res text dp count), w') ->
  1 <= limit ->
  exists job rest,
    (list_jobs (Some limit) w').1 = job :: rest
    /\ job_id job = id /\ job_success job = true.
Proof.
  intros Hrun Hlimit.
  assert (exists j, recent_jobs w' = jobs_with j (recent_jobs w) /\ job_id j = id
                    /\ job_success j = true) as (j & Hjobs & Hid & Hs).
  { assert ((forall d, data <> PyDict d) -> False) as Hnd
      by (intros H; rewrite (run_circuit_not_an_object E data w H) in Hrun;
          discriminate).
    destruct data as [| | | | | |d]; try (exfalso; apply Hnd; intros d'; discriminate).
    clear Hnd.
    destruct (py_len (default (PyList []) (d !! "gates"))) as [n_gates|e] eqn:Hlen.
    - destruct (build_circuit (default (PyInt 2) (d !! "numQubits"))
                  (default (PyList []) (d !! "gates"))) as [[qc|e] lg] eqn:Hbuild.
      + rewrite (run_circuit_unfolded E d w n_gates qc lg Hlen Hbuild) in Hrun.
        match type of Hrun with context [run_simulation E qc ?s ?w1] =>
          pose proof (proj1 (run_simulation_keeps_jobs E qc s w1)) as Hj;
          destruct (run_simulation E qc s w1) as [[res'|e] w2] end;
          [|discriminate].
        simpl in Hj.
        destruct (qasm E qc); [destruct (depth E qc)|]; try discriminate.
        injection Hrun as <- <- <- <- <- <-. eexists. simpl. rewrite Hj.
        split; [reflexivity|]. by split.
      + rewrite (run_circuit_build_raises E d w n_gates lg e Hlen Hbuild) in Hrun. discriminate.
    - rewrite (run_circuit_gates_without_length E d w e Hlen)
        in Hrun. discriminate. }
  unfold list_jobs. simpl default. rewrite (proj2 (Z.ltb_ge limit 0)) by lia.
  rewrite Hjobs. unfold jobs_with.
  destruct (Z.to_nat limit) as [|k] eqn:Hk; [lia|].
  destruct (Nat.ltb_spec MAX_JOBS (length (j :: recent_jobs w))) as [Hgt|Hle].
  - destruct (recent_jobs w) as [|j' jobs]; [unfold MAX_JOBS in Hgt; simpl in Hgt; lia|].
    by eexists _, _.
  - by eexists _, _.
Qed.

End JobsAfterARun.

Lemma run_circuit_early_failure_witness :
  run_circuit idle_env (PyList [PyInt 3]) empty_world
    = (Ok (Failure AttributeError 500),
       {| log := log empty_world ++ [] ++ [Error_running_circuit AttributeError];
          recent_jobs := recent_jobs empty_world; calls := calls empty_world |}).
Proof.
  apply (proj1 (run_circuit_early_failure idle_env (PyList [PyInt 3]) empty_world)).
  intros d. discriminate.
Defined.

Lemma job_is_stored_once_simulated_witness :
  let d : gmap string pyval := list_to_map [("numQubits", PyInt 1); ("shots", PyInt 4)] in
  let after := run_circuit export_failing_env (PyDict d) empty_world in
  recent_jobs after.2 = jobs_with (job_of export_failing_env (PyInt 1) 0 (PyInt 4)) []
  /\ after.1 = Ok (Failure (QiskitError "no export") 500).
Proof.
  intros d after.
  assert (py_len (default (PyList []) (d !! "gates")) = Ok 0%nat) as Hlen
    by (vm_compute; reflexivity).
  set (qc := {| qc_num_qubits := 1; qc_cregs := [1]; qc_data := [] |}).
  assert (build_circuit (default (PyInt 2) (d !! "numQubits"))
            (default (PyList []) (d !! "gates")) = (Ok qc, [])) as Hbuild
    by (vm_compute; reflexivity).
  destruct (job_is_stored_once_simulated export_failing_env d empty_world 0 qc []
              Hlen Hbuild) as [Hok _].
  match type of Hok with context [run_simulation ?E ?c ?s ?w1] =>
    destruct (run_simulation E c s w1) as [[res|e] w2] eqn:Hsim;
      [|vm_compute in Hsim; discriminate Hsim] end.
  destruct (Hok res w2 eq_refl) as [Hjobs Hfail]. split.
  - exact Hjobs.
  - apply Hfail. reflexivity.
Defined.

Lemma job_list_stays_bounded_witness :
  (length (recent_jobs (run_circuit idle_env (json_object []) empty_world).2)
     <= MAX_JOBS)%nat.
Proof.
  apply (job_list_stays_bounded idle_env (json_object []) empty_world).
  unfold MAX_JOBS. simpl. lia.
Defined.

Lemma list_jobs_shows_the_last_run_witness :
  exists w' job rest,
    (run_circuit idle_env (json_object []) empty_world).2 = w'
    /\ (list_jobs (Some 1) w').1 = job :: rest
    /\ job_id job = "job-20240101000000000000" /\ job_success job = true.
Proof.
  destruct (run_circuit idle_env (json_object []) empty_world) as [o w'] eqn:Hrun.
  assert (exists res text dp count,
            o = Ok (Run_success "job-20240101000000000000" res text dp count))
    as (res & text & dp & count & ->)
    by (vm_compute in Hrun; injection Hrun as <- _; by eexists _, _, _, _).
  destruct (list_jobs_shows_the_last_run idle_env (json_object []) empty_world w' 1
              _ res text dp count Hrun ltac:(lia)) as (job & rest & H1 & H2 & H3).
  by exists w', job, rest.
Defined.

(** ** Status and start-up configuration *)

(** X19: [status] always reports [max_qubits] 25 and four feature entries;
    the last is [ibm-quantum] exactly when the answer says a token is
    configured, and [null] otherwise. *)
Theorem status_features (E : Environment) :
  max_qubits (status E) = 25
  /\ length (features (status E)) = 4%nat
  /\ (Some "ibm-quantum" ∈ features (status E)
      <-> ibm_quantum_configured (status E) = true)
  /\ (None ∈ features (status E) <-> ibm_quantum_configured (status E) = false).
Proof.
  unfold status. simpl.
  destruct (IBM_QUANTUM_TOKEN E) as [t|]; [destruct (String.eqb t EmptyString)|];
    simpl; repeat split; try done; try (intros _; in_list);
    intros H; repeat (apply elem_of_cons in H as [H|H]; [discriminate H|]);
    by apply elem_of_nil in H.
Qed.


